(** * XeroClientHelper: token freshness, cache adapter and session manager

    A shallow embedding of the [XeroClientHelper] class (the TypeScript
    source of the helper) and the properties of its token handling.

    The class stores everything it touches as [any]; the embedding therefore
    works over untyped JavaScript values.  The wrapped [XeroClient], the
    Redis driver, the clock and the ECMAScript built-ins are outside the
    class: they are gathered in an environment record [Env] and every
    statement is proved for all environments. *)

From Stdlib Require Import ZArith NArith String List Lia Ascii.
From stdpp Require Import base gmap strings.
Import ListNotations.

Set Warnings "-register-all".
Local Open Scope string_scope.
Local Open Scope Z_scope.

(** ** JavaScript values *)

(** Numbers: the integral doubles, the two infinities, and [NaN].  (The
    expiry of a token and the clock are second counts.) *)
Inductive num : Type :=
| NaN
| Fin (z : Z)
| PosInf
| NegInf.

(** Plain data, as [JSON.parse] or the SDK hand it over.  Objects are bags
    of own data properties. *)
Inductive JsVal : Type :=
| JUndefined
| JNull
| JBool (b : bool)
| JNum (n : num)
| JStr (s : string)
| JArr (items : list JsVal)
| JObj (fields : gmap string JsVal).

(** A thrown value: an error object with its [name] and [message]. *)
Inductive Exn : Type :=
| JsError (name message : string).

Definition Error (message : string) : Exn := JsError "Error" message.
Definition TypeError (message : string) : Exn := JsError "TypeError" message.

(** [Error.prototype.toString], used by the template literals [`${error}`]. *)
Definition Exn_toString (e : Exn) : string :=
  match e with
  | JsError name message =>
      match name, message with
      | EmptyString, _ => message
      | _, EmptyString => name
      | _, _ => name ++ ": " ++ message
      end
  end.

Inductive Result (A : Type) : Type :=
| Ok (a : A)
| Throw (e : Exn).

Arguments Ok {A} a.
Arguments Throw {A} e.

Definition Result_bind {A B} (r : Result A) (k : A -> Result B) : Result B :=
  match r with
  | Ok a => k a
  | Throw e => Throw e
  end.

(** ToBoolean. *)
Definition num_truthy (n : num) : bool :=
  match n with
  | NaN => false
  | Fin z => negb (z =? 0)
  | PosInf | NegInf => true
  end.

Definition truthy (v : JsVal) : bool :=
  match v with
  | JUndefined | JNull => false
  | JBool b => b
  | JNum n => num_truthy n
  | JStr EmptyString => false
  | JStr _ => true
  | JArr _ | JObj _ => true
  end.

(** [a || b] on numbers, [a - b] and [a < b]. *)
Definition num_or (a b : num) : num := if num_truthy a then a else b.

Definition num_sub (a b : num) : num :=
  match a, b with
  | Fin x, Fin y => Fin (x - y)
  | PosInf, Fin _ | PosInf, NegInf | Fin _, NegInf => PosInf
  | NegInf, Fin _ | NegInf, PosInf | Fin _, PosInf => NegInf
  | _, _ => NaN
  end.

Definition num_ltb (a b : num) : bool :=
  match a, b with
  | Fin x, Fin y => x <? y
  | NegInf, Fin _ | NegInf, PosInf | Fin _, PosInf => true
  | _, _ => false
  end.

(** [v?.k] for a key [k] that no built-in prototype defines
    ([expires_at], [refresh_token], [tenantId], [config], ...): the own
    property of an object, [undefined] for everything else. *)
Definition get_prop (v : JsVal) (k : string) : JsVal :=
  match v with
  | JObj m => default JUndefined (m !! k)
  | _ => JUndefined
  end.

(** [v.k]: as [v?.k], but reading a property of [null] or [undefined]
    throws. *)
Definition get_prop_strict (v : JsVal) (k : string) : Result JsVal :=
  match v with
  | JUndefined | JNull => Throw (TypeError "Cannot read properties of undefined")
  | _ => Ok (get_prop v k)
  end.

Definition index_key (i : nat) : string :=
  match i with
  | O => "0"
  | S O => "1"
  | _ => "2"
  end.

(** [v?.[i]] for the literal indices 0 and 1 of the source. *)
Definition get_index (v : JsVal) (i : nat) : JsVal :=
  match v with
  | JArr l => nth i l JUndefined
  | JStr s =>
      match String.get i s with
      | Some c => JStr (String c EmptyString)
      | None => JUndefined
      end
  | JObj m => default JUndefined (m !! index_key i)
  | _ => JUndefined
  end.

(** [v.length] of a value that is not [null] or [undefined]. *)
Definition get_length (v : JsVal) : JsVal :=
  match v with
  | JArr l => JNum (Fin (Z.of_nat (List.length l)))
  | JStr s => JNum (Fin (Z.of_nat (String.length s)))
  | JObj m => default JUndefined (m !! "length")
  | _ => JUndefined
  end.

(** [v === 0]. *)
Definition strict_eq_zero (v : JsVal) : bool :=
  match v with
  | JNum (Fin z) => z =? 0
  | _ => false
  end.

(** The verdict of [isExpiredOrNearExpiry] at the clock value [now], given
    the outcome of computing [expiresAt]: a throw is caught and reported as
    expired. *)
Definition expired_verdict (now : Z) (r : Result num) : bool :=
  match r with
  | Ok expiresAt =>
      negb (num_truthy expiresAt) || num_ltb (num_sub expiresAt (Fin now)) (Fin 60)
  | Throw _ => true
  end.

(** [String.prototype.trim] over one-byte code units: the white space and
    line terminators below 256. *)
Definition is_white_space (c : ascii) : bool :=
  match N_of_ascii c with
  | 9 | 10 | 11 | 12 | 13 | 32 | 160 => true
  | _ => false
  end%N.

Fixpoint trimStart (s : string) : string :=
  match s with
  | EmptyString => EmptyString
  | String c s' => if is_white_space c then trimStart s' else s
  end.

Fixpoint trimEnd (s : string) : string :=
  match s with
  | EmptyString => EmptyString
  | String c s' =>
      match trimEnd s' with
      | EmptyString => if is_white_space c then EmptyString else String c EmptyString
      | t => String c t
      end
  end.

Definition trim (s : string) : string := trimEnd (trimStart s).

(** [code?.trim()]: [undefined] on a nullish receiver, the trimmed string on
    a string, and a [TypeError] on any other value (it has no callable
    [trim]). *)
Definition optional_trim (code : JsVal) : Result JsVal :=
  match code with
  | JUndefined | JNull => Ok JUndefined
  | JStr s => Ok (JStr (trim s))
  | _ => Throw (TypeError "code?.trim is not a function")
  end.

(** ** The world outside the class *)

(** What the class asks of its collaborators, in call order. *)
Inductive Event : Type :=
| CallRedisGet (key : string)
| CallRedisSet (key data : string)
| CallSetTokenSet (tokenSet : JsVal)
| CallUpdateTenants
| CallRefreshWithRefreshToken (clientId clientSecret refreshToken : JsVal)
| CallApiCallback (callbackUrl : string)
| ConsoleError (label : string) (error : Exn).

(** A method of the wrapped client: it sees and may change the client
    object and the outside state, and returns or throws. *)
Definition SdkMethod (X A : Type) : Type :=
  gmap string JsVal -> X -> Result A * gmap string JsVal * X.

(** The collaborators of the class.  [X] is the state the class cannot
    see: the Redis server, the network, the SDK internals, the clock.
    [Date_now] is [Date.now()], the milliseconds elapsed since the epoch.
    [StringToNumber] is ToNumber on strings; [ObjectToNumber] is ToNumber on
    arrays and objects, which converts them to a primitive first and may
    throw.  [redis_get] returns the stored text, or [None] for [null]. *)
Record Env (X : Type) : Type := mkEnv {
  (* ECMAScript built-ins *)
  StringToNumber : string -> num;
  ObjectToNumber : JsVal -> Result num;
  ToString : JsVal -> Result string;
  JSON_stringify : JsVal -> Result string;
  JSON_parse : string -> Result JsVal;
  encodeURIComponent : string -> Result string;
  Date_now : X -> N;
  (* process.env *)
  XERO_CLIENT_ID : JsVal;
  XERO_CLIENT_SECRET : JsVal;
  (* ioredis *)
  redis_get : string -> X -> Result (option string) * X;
  redis_set : string -> string -> X -> Result unit * X;
  (* xero-node; [sdk_setTokenSet] is [None] when the client has no such
     function *)
  sdk_setTokenSet : option (JsVal -> SdkMethod X unit);
  sdk_updateTenants : SdkMethod X unit;
  sdk_refreshWithRefreshToken : JsVal -> JsVal -> JsVal -> SdkMethod X JsVal;
  sdk_apiCallback : string -> SdkMethod X JsVal
}.

Arguments StringToNumber {X} _ _.
Arguments ObjectToNumber {X} _ _.
Arguments ToString {X} _ _.
Arguments JSON_stringify {X} _ _.
Arguments JSON_parse {X} _ _.
Arguments encodeURIComponent {X} _ _.
Arguments Date_now {X} _ _.
Arguments XERO_CLIENT_ID {X} _.
Arguments XERO_CLIENT_SECRET {X} _.
Arguments redis_get {X} _ _ _.
Arguments redis_set {X} _ _ _ _.
Arguments sdk_setTokenSet {X} _.
Arguments sdk_updateTenants {X} _ _ _.
Arguments sdk_refreshWithRefreshToken {X} _ _ _ _ _ _.
Arguments sdk_apiCallback {X} _ _ _ _.

(** The state a call runs in: the wrapped client object (shared and
    mutable), the outside state, and the calls made so far. *)
Record World (X : Type) : Type := mkWorld {
  client : gmap string JsVal;
  ext : X;
  trace : list Event
}.

Arguments mkWorld {X} _ _ _.
Arguments client {X} _.
Arguments ext {X} _.
Arguments trace {X} _.

(** ** Asynchronous code as a state-and-exception monad *)

Definition M (X A : Type) : Type := World X -> Result A * World X.

Definition ret {X A} (a : A) : M X A := fun w => (Ok a, w).

Definition throw {X A} (e : Exn) : M X A := fun w => (Throw e, w).

Definition lift {X A} (r : Result A) : M X A := fun w => (r, w).

Definition bind {X A B} (m : M X A) (k : A -> M X B) : M X B :=
  fun w =>
    match m w with
    | (Ok a, w') => k a w'
    | (Throw e, w') => (Throw e, w')
    end.

Definition try_catch {X A} (body : M X A) (handler : Exn -> M X A) : M X A :=
  fun w =>
    match body w with
    | (Ok a, w') => (Ok a, w')
    | (Throw e, w') => handler e w'
    end.

Declare Scope js_scope.
Delimit Scope js_scope with js.
Notation "x <- c ;; k" := (bind c (fun x => k))
  (at level 100, c at next level, k at level 200, right associativity) : js_scope.
Notation "c ;; k" := (bind c (fun _ => k))
  (at level 100, k at level 200, right associativity) : js_scope.
Local Open Scope js_scope.

Definition emit {X} (ev : Event) : M X unit :=
  fun w => (Ok tt, mkWorld (client w) (ext w) (trace w ++ [ev])).

Definition console_error {X} (label : string) (error : Exn) : M X unit :=
  emit (ConsoleError label error).

(** A call of a client method, recorded before it runs. *)
Definition call_sdk {X A} (ev : Event) (f : SdkMethod X A) : M X A :=
  fun w =>
    match f (client w) (ext w) with
    | (r, c', x') => (r, mkWorld c' x' (trace w ++ [ev]))
    end.

(** A call of the Redis driver. *)
Definition call_redis {X A} (ev : Event) (f : X -> Result A * X) : M X A :=
  fun w =>
    match f (ext w) with
    | (r, x') => (r, mkWorld (client w) x' (trace w ++ [ev]))
    end.

(** [n] calls in a row. *)
Fixpoint repeatM {X} (n : nat) (m : M X unit) : M X unit :=
  match n with
  | O => ret tt
  | S n' => m ;; repeatM n' m
  end.

(** The number of tenant-list calls among the recorded calls. *)
Definition is_tenant_call (ev : Event) : bool :=
  match ev with
  | CallUpdateTenants => true
  | _ => false
  end.

Definition tenant_calls (t : list Event) : nat :=
  List.length (List.filter is_tenant_call t).

(** The declared type of the client's [tenants] field, [any[]], possibly
    not yet set. *)
Definition array_or_unset (v : JsVal) : Prop :=
  match v with
  | JArr _ | JUndefined | JNull => True
  | _ => False
  end.

(** [w'] is [w] after some calls, none of them a tenant-list call. *)
Definition quiet_step {X} (w w' : World X) : Prop :=
  exists evs, trace w' = (trace w ++ evs)%list /\ tenant_calls evs = 0%nat.

(** [client.k] and [client.k = v] on the wrapped client. *)
Definition client_field {X} (w : World X) (k : string) : JsVal :=
  default JUndefined (client w !! k).

Definition read_client {X} (k : string) : M X JsVal :=
  fun w => (Ok (client_field w k), w).

Definition write_client {X} (k : string) (v : JsVal) : M X unit :=
  fun w => (Ok tt, mkWorld (<[k := v]> (client w)) (ext w) (trace w)).

(** ** The class [XeroClientHelper] *)

Section XeroClientHelper.

Context {X : Type} (env : Env X).

(** [private readonly TOKEN_SET_KEY = 'xero:oauth:tokenSet'] *)
Definition TOKEN_SET_KEY : string := "xero:oauth:tokenSet".

(** [Number(v)]: ToNumber on the primitives; arrays and objects go through
    the built-in conversion to a primitive, which may throw. *)
Definition Number (v : JsVal) : Result num :=
  match v with
  | JUndefined => Ok NaN
  | JNull => Ok (Fin 0)
  | JBool b => Ok (Fin (if b then 1 else 0))
  | JNum n => Ok n
  | JStr s => Ok (StringToNumber env s)
  | JArr _ | JObj _ => ObjectToNumber env v
  end.

(** [Math.floor(Date.now() / 1000)] *)
Definition nowSeconds (w : World X) : Z := Z.of_N (Date_now env (ext w)) / 1000.

Definition Date_now_seconds : M X Z := fun w => (Ok (nowSeconds w), w).

(** [saveTokenSet(tokenSet)] *)
Definition saveTokenSet (tokenSet : JsVal) : M X unit :=
  try_catch
    (data <- lift (JSON_stringify env (if truthy tokenSet then tokenSet else JObj ∅)) ;;
     call_redis (CallRedisSet TOKEN_SET_KEY data) (redis_set env TOKEN_SET_KEY data))
    (fun error => console_error "Failed to save token set:" error).

(** [loadTokenSet()] *)
Definition loadTokenSet : M X JsVal :=
  try_catch
    (raw <- call_redis (CallRedisGet TOKEN_SET_KEY) (redis_get env TOKEN_SET_KEY) ;;
     match raw with
     | None | Some EmptyString => ret JNull
     | Some s => lift (JSON_parse env s)
     end)
    (fun error => console_error "Failed to load token set:" error ;; ret JNull).

(** [setClientTokenSet(tokenSet)] *)
Definition setClientTokenSet (tokenSet : JsVal) : M X unit :=
  if negb (truthy tokenSet) then ret tt
  else
    match sdk_setTokenSet env with
    | Some setTokenSet => call_sdk (CallSetTokenSet tokenSet) (setTokenSet tokenSet)
    | None => write_client "tokenSet" tokenSet
    end.

(** [Number(tokenSet?.expires_at) || 0] *)
Definition expiresAt_of (tokenSet : JsVal) : Result num :=
  Result_bind (Number (get_prop tokenSet "expires_at")) (fun n => Ok (num_or n (Fin 0))).

(** [isExpiredOrNearExpiry(tokenSet)] *)
Definition isExpiredOrNearExpiry (tokenSet : JsVal) : M X bool :=
  try_catch
    (nowSeconds <- Date_now_seconds ;;
     expiresAt <- lift (expiresAt_of tokenSet) ;;
     ret (negb (num_truthy expiresAt)
          || num_ltb (num_sub expiresAt (Fin nowSeconds)) (Fin 60)))
    (fun _ => ret true).

(** The freshness check of the session manager, [!this.isExpiredOrNearExpiry(t)]. *)
Definition isFresh (tokenSet : JsVal) : M X bool :=
  expired <- isExpiredOrNearExpiry tokenSet ;;
  ret (negb expired).

(** [currentTokenSet && !this.isExpiredOrNearExpiry(currentTokenSet)], the
    condition of the first [return] of [ensureAuthenticated]. *)
Definition currentTokenSetIsFresh : M X bool :=
  currentTokenSet <- read_client "tokenSet" ;;
  if truthy currentTokenSet then isFresh currentTokenSet else ret false.

Definition authenticationRequired : Exn :=
  Error "Xero authentication required. Please connect via OAuth flow.".

(** The [try] block of [ensureAuthenticated]; [true] stands for its
    [return]. *)
Definition tryRefresh (stored : JsVal) : M X bool :=
  if truthy (get_prop stored "refresh_token") then
    refresh_token <- lift (get_prop_strict stored "refresh_token") ;;
    refreshed <- call_sdk
      (CallRefreshWithRefreshToken (XERO_CLIENT_ID env) (XERO_CLIENT_SECRET env) refresh_token)
      (sdk_refreshWithRefreshToken env (XERO_CLIENT_ID env) (XERO_CLIENT_SECRET env) refresh_token) ;;
    if truthy refreshed then
      setClientTokenSet refreshed ;;
      saveTokenSet refreshed ;;
      ret true
    else ret false
  else ret false.

(** [ensureAuthenticated()] *)
Definition ensureAuthenticated : M X unit :=
  valid <- currentTokenSetIsFresh ;;
  if valid then ret tt
  else
    stored <- loadTokenSet ;;
    loadedFresh <-
      (if truthy stored then
         setClientTokenSet stored ;;
         isFresh stored
       else ret false) ;;
    if loadedFresh then ret tt
    else
      refreshed <-
        try_catch (tryRefresh stored)
          (fun error => console_error "Token refresh failed:" error ;; ret false) ;;
      if refreshed then ret tt
      else throw authenticationRequired.

(** [getTenants()] *)
Definition getTenants : M X JsVal :=
  ensureAuthenticated ;;
  try_catch
    (tenants <- read_client "tenants" ;;
     (if negb (truthy tenants) || strict_eq_zero (get_length tenants)
      then call_sdk CallUpdateTenants (sdk_updateTenants env)
      else ret tt) ;;
     tenants' <- read_client "tenants" ;;
     ret (if truthy tenants' then tenants' else JArr []))
    (fun error => throw (Error ("Failed to retrieve tenants: " ++ Exn_toString error))).

(** [getActiveTenantId()] *)
Definition getActiveTenantId : M X JsVal :=
  ensureAuthenticated ;;
  tenants <- getTenants ;;
  let tenantId := get_prop (get_index tenants 1) "tenantId" in
  if negb (truthy tenantId) then throw (Error "No connected Xero tenant found")
  else ret tenantId.

(** [`${v}`] *)
Definition template (v : JsVal) : Result string :=
  match v with
  | JStr s => Ok s
  | _ => ToString env v
  end.

(** [this.xeroClient?.config?.redirectUris?.[0]] *)
Definition configuredRedirectUri (w : World X) : JsVal :=
  get_index (get_prop (client_field w "config") "redirectUris") 0.

(** [getTokenFromCode(code)] *)
Definition getTokenFromCode (code : JsVal) : M X JsVal :=
  trimmed <- lift (optional_trim code) ;;
  if negb (truthy trimmed) then throw (Error "Authorization code is required")
  else
    redirectUri <- (fun w => (Ok (configuredRedirectUri w), w)) ;;
    if negb (truthy redirectUri) then throw (Error "XERO_REDIRECT_URIS not configured")
    else
      try_catch
        (prefix <- lift (template redirectUri) ;;
         encoded <- lift (match code with
                          | JStr s => encodeURIComponent env s
                          | _ => Result_bind (ToString env code) (encodeURIComponent env)
                          end) ;;
         let callbackUrl := prefix ++ "?code=" ++ encoded in
         tokenSet <- call_sdk (CallApiCallback callbackUrl) (sdk_apiCallback env callbackUrl) ;;
         setClientTokenSet tokenSet ;;
         call_sdk CallUpdateTenants (sdk_updateTenants env) ;;
         saveTokenSet tokenSet ;;
         ret tokenSet)
        (fun error =>
           throw (Error ("Failed to exchange authorization code: " ++ Exn_toString error))).

End XeroClientHelper.

(** ** A sample environment

    A healthy in-memory Redis, a client whose token set and tenant list are
    plain fields, and a provider that honours one refresh token.  It is used
    to run the class on concrete states. *)

Module Sample.

Record Outside : Type := mkOutside {
  store : gmap string string;
  clock : N;
  remote_tenants : list JsVal
}.

Definition digit_value (c : ascii) : option Z :=
  let n := Z.of_N (N_of_ascii c) in
  if (48 <=? n) && (n <=? 57) then Some (n - 48) else None.

Fixpoint digits_value (acc : Z) (s : string) : num :=
  match s with
  | EmptyString => Fin acc
  | String c s' =>
      match digit_value c with
      | Some d => digits_value (10 * acc + d) s'
      | None => NaN
      end
  end.

(** Decimal digit strings and the infinities; the empty string is 0. *)
Definition stringToNumber (s : string) : num :=
  if String.eqb (trim s) "Infinity" || String.eqb (trim s) "+Infinity" then PosInf
  else if String.eqb (trim s) "-Infinity" then NegInf
  else digits_value 0 (trim s).

Definition objectToNumber (v : JsVal) : Result num :=
  match v with
  | JObj m =>
      match m !! "toString" with
      | Some _ => Throw (TypeError "Cannot convert object to primitive value")
      | None => Ok NaN
      end
  | _ => Ok NaN
  end.

Definition toString (v : JsVal) : Result string :=
  match v with
  | JStr s => Ok s
  | JUndefined => Ok "undefined"
  | JNull => Ok "null"
  | JBool true => Ok "true"
  | JBool false => Ok "false"
  | _ => Ok "[object Object]"
  end.

Definition quoted (s : string) : string :=
  String (ascii_of_N 34) (s ++ String (ascii_of_N 34) EmptyString).

Fixpoint decimal_digits (fuel : nat) (n : N) (acc : string) : string :=
  match fuel with
  | O => acc
  | S fuel' =>
      let acc' := String (ascii_of_N (48 + n mod 10)) acc in
      if (n / 10 =? 0)%N then acc' else decimal_digits fuel' (n / 10)%N acc'
  end.

Definition decimal (z : Z) : string :=
  let body := decimal_digits 40 (Z.abs_N z) EmptyString in
  if z <? 0 then String "-" body else body.

Definition stringify_scalar (v : JsVal) : string :=
  match v with
  | JStr s => quoted s
  | JNum (Fin z) => decimal z
  | JBool true => "true"
  | JBool false => "false"
  | JArr _ => "[]"
  | JObj _ => "{}"
  | _ => "null"
  end.

Definition stringify_field (kv : string * JsVal) : string :=
  quoted (fst kv) ++ ":" ++ stringify_scalar (snd kv).

(** [JSON.stringify] on scalars and on objects of scalars. *)
Definition stringify (v : JsVal) : Result string :=
  match v with
  | JObj m => Ok ("{" ++ String.concat "," (map stringify_field (map_to_list m)) ++ "}")
  | _ => Ok (stringify_scalar v)
  end.

Definition object (fields : list (string * JsVal)) : JsVal := JObj (list_to_map fields).

Definition stale_token : JsVal :=
  object [("access_token", JStr "a0"); ("expires_at", JNum (Fin 900));
          ("refresh_token", JStr "r0")].

Definition stale_token_no_refresh : JsVal :=
  object [("access_token", JStr "a1"); ("expires_at", JNum (Fin 900))].

Definition fresh_token : JsVal :=
  object [("access_token", JStr "a2"); ("expires_at", JNum (Fin 2800));
          ("refresh_token", JStr "r1")].

Definition boundary_token : JsVal :=
  object [("access_token", JStr "a3"); ("expires_at", JNum (Fin 1060))].

Definition known_documents : list JsVal :=
  [stale_token; stale_token_no_refresh; fresh_token; boundary_token].

Definition text_of (v : JsVal) : string :=
  match stringify v with
  | Ok s => s
  | Throw _ => EmptyString
  end.

(** [JSON.parse], on the texts of the known documents; any other text is
    a syntax error. *)
Definition parse (s : string) : Result JsVal :=
  match List.find (fun v => String.eqb (text_of v) s) known_documents with
  | Some v => Ok v
  | None => Throw (JsError "SyntaxError" "Unexpected token in JSON")
  end.

Definition redisGet (key : string) (x : Outside) : Result (option string) * Outside :=
  (Ok (store x !! key), x).

Definition redisSet (key data : string) (x : Outside) : Result unit * Outside :=
  (Ok tt, mkOutside (<[key := data]> (store x)) (clock x) (remote_tenants x)).

Definition setTokenSet (tokenSet : JsVal) : SdkMethod Outside unit :=
  fun c x => (Ok tt, <["tokenSet" := tokenSet]> c, x).

Definition updateTenants : SdkMethod Outside unit :=
  fun c x => (Ok tt, <["tenants" := JArr (remote_tenants x)]> c, x).

Definition refreshWithRefreshToken (clientId clientSecret refreshToken : JsVal)
  : SdkMethod Outside JsVal :=
  fun c x =>
    match refreshToken with
    | JStr "r0" => (Ok fresh_token, c, x)
    | _ => (Throw (Error "invalid_grant"), c, x)
    end.

Definition apiCallback (callbackUrl : string) : SdkMethod Outside JsVal :=
  fun c x => (Ok fresh_token, c, x).

Definition env : Env Outside :=
  {| StringToNumber := stringToNumber;
     ObjectToNumber := objectToNumber;
     ToString := toString;
     JSON_stringify := stringify;
     JSON_parse := parse;
     encodeURIComponent := fun s => Ok s;
     Date_now := clock;
     XERO_CLIENT_ID := JStr "client-id";
     XERO_CLIENT_SECRET := JStr "client-secret";
     redis_get := redisGet;
     redis_set := redisSet;
     sdk_setTokenSet := Some setTokenSet;
     sdk_updateTenants := updateTenants;
     sdk_refreshWithRefreshToken := refreshWithRefreshToken;
     sdk_apiCallback := apiCallback |}.

Definition tenant (id : string) : JsVal :=
  object [("tenantId", JStr id); ("tenantType", JStr "ORGANISATION")].

(** The clock reads 1000 s after the epoch. *)
Definition outside (cached : option JsVal) (tenants : list JsVal) : Outside :=
  {| store := match cached with
              | Some v => {[ TOKEN_SET_KEY := text_of v ]}
              | None => ∅
              end;
     clock := 1000000;
     remote_tenants := tenants |}.

Definition world (fields : list (string * JsVal)) (cached : option JsVal)
  (tenants : list JsVal) : World Outside :=
  mkWorld (list_to_map fields) (outside cached tenants) [].

(** *** Sample states; in all of them the clock reads 1000 s. *)

(** Nothing in memory, nothing in the cache. *)
Definition empty_world : World Outside := world [] None [].

(** A stale record with a refresh token in the cache, nothing in memory. *)
Definition cached_stale : World Outside :=
  world [] (Some stale_token) [tenant "t0"; tenant "t1"].

Definition cached_stale_loaded : World Outside :=
  snd (loadTokenSet env cached_stale).

Definition cached_stale_applied : World Outside :=
  snd (setClientTokenSet env stale_token cached_stale_loaded).

Definition cached_stale_refresh_call : Event :=
  CallRefreshWithRefreshToken (JStr "client-id") (JStr "client-secret") (JStr "r0").

Definition cached_stale_refreshed : World Outside :=
  mkWorld (client cached_stale_applied) (ext cached_stale_applied)
    (trace cached_stale_applied ++ [cached_stale_refresh_call]).

(** A stale record without refresh token in the cache, nothing in memory. *)
Definition cached_expired : World Outside :=
  world [] (Some stale_token_no_refresh) [tenant "t0"].

(** The same cache, but a fresh token in memory. *)
Definition cached_expired_memory_fresh : World Outside :=
  world [("tokenSet", fresh_token)] (Some stale_token_no_refresh) [tenant "t0"].

(** A stale record with a refresh token in memory, nothing in the cache. *)
Definition memory_stale : World Outside :=
  world [("tokenSet", stale_token)] None [].

(** A fresh token in memory. *)
Definition memory_fresh : World Outside :=
  world [("tokenSet", fresh_token)] None [].

(** A text in the cache that is not JSON. *)
Definition cached_garbage : World Outside :=
  mkWorld ∅ (mkOutside {[ TOKEN_SET_KEY := "{oops" ]} 1000000 []) [].

(** An authenticated client with two tenants, and with one. *)
Definition two_tenants : World Outside :=
  world [("tokenSet", fresh_token); ("tenants", JArr [tenant "t0"; tenant "t1"])] None [].

Definition one_tenant : World Outside :=
  world [("tokenSet", fresh_token); ("tenants", JArr [tenant "t0"])] None [].

End Sample.

(** ** The rest of the class: the constructor *)

(** The number of cache writes and of calls of the wrapped client among the
    recorded calls. *)
Definition is_cache_write (ev : Event) : bool :=
  match ev with
  | CallRedisSet _ _ => true
  | _ => false
  end.

Definition cache_writes (t : list Event) : nat :=
  List.length (List.filter is_cache_write t).

Definition is_cache_read (ev : Event) : bool :=
  match ev with
  | CallRedisGet _ => true
  | _ => false
  end.

Definition cache_reads (t : list Event) : nat :=
  List.length (List.filter is_cache_read t).

Definition is_refresh_call (ev : Event) : bool :=
  match ev with
  | CallRefreshWithRefreshToken _ _ _ => true
  | _ => false
  end.

Definition refresh_calls (t : list Event) : nat :=
  List.length (List.filter is_refresh_call t).

(** The calls [evs] stay within what one run of the session manager may
    do: no tenant-list call, at most one cache read, at most one refresh
    call, and no more cache writes than refresh calls. *)
Definition session_budget (evs : list Event) : Prop :=
  tenant_calls evs = 0%nat
  /\ (cache_reads evs <= 1)%nat
  /\ (refresh_calls evs <= 1)%nat
  /\ (cache_writes evs <= refresh_calls evs)%nat.

(** In [evs], every cache write comes after a refresh call. *)
Definition writes_follow_refresh (evs : list Event) : Prop :=
  forall pre key data post,
    evs = (pre ++ CallRedisSet key data :: post)%list ->
    (1 <= refresh_calls pre)%nat.

(** The same, checked from left to right; [refreshed] tells whether a
    refresh call has been seen. *)
Fixpoint writes_guarded (refreshed : bool) (evs : list Event) : bool :=
  match evs with
  | [] => true
  | CallRefreshWithRefreshToken _ _ _ :: rest => writes_guarded true rest
  | CallRedisSet _ _ :: rest => refreshed && writes_guarded refreshed rest
  | _ :: rest => writes_guarded refreshed rest
  end.

(** The variables of [process.env] that only the constructor reads; a
    variable is a string or is not set. *)
Record ProcessEnv : Type := mkProcessEnv {
  XERO_REDIRECT_URIS : option string;
  XERO_SCOPES : option string;
  XERO_HTTP_TIMEOUT : option string;
  XERO_CLOCK_TOLERANCE : option string
}.

(** [process.env.V || d] *)
Definition env_or (v : option string) (d : string) : string :=
  match v with
  | Some (String c s) => String c s
  | _ => d
  end.

(** [s.split(sep)] for a separator of one code unit. *)
Fixpoint split_on (sep : ascii) (s : string) : list string :=
  match s with
  | EmptyString => [EmptyString]
  | String c s' =>
      if Ascii.eqb c sep then EmptyString :: split_on sep s'
      else
        match split_on sep s' with
        | piece :: pieces => String c piece :: pieces
        | [] => [String c EmptyString]
        end
  end.

(** [(v) => !!v] on strings. *)
Definition nonempty (v : string) : bool :=
  match v with
  | EmptyString => false
  | String _ _ => true
  end.

(** [s.split(sep).map((v) => v.trim()).filter((v) => !!v)] *)
Definition split_trim_filter (sep : ascii) (s : string) : list string :=
  List.filter nonempty (List.map trim (split_on sep s)).

Definition DEFAULT_SCOPES : string :=
  "openid profile email accounting.settings accounting.reports.read accounting.journals.read accounting.contacts accounting.attachments accounting.transactions offline_access".

Definition redirectUris (penv : ProcessEnv) : list string :=
  split_trim_filter "," (env_or (XERO_REDIRECT_URIS penv) EmptyString).

Definition scopes (penv : ProcessEnv) : list string :=
  split_trim_filter " " (env_or (XERO_SCOPES penv) DEFAULT_SCOPES).

Section Constructor.

Context {X : Type} (env : Env X).

(** [Number(process.env.V)] *)
Definition Number_of_env (v : option string) : num :=
  match v with
  | None => NaN
  | Some s => StringToNumber env s
  end.

(** [Number(process.env.XERO_HTTP_TIMEOUT) || 30000] *)
Definition httpTimeout (penv : ProcessEnv) : num :=
  num_or (Number_of_env (XERO_HTTP_TIMEOUT penv)) (Fin 30000).

(** [Number(process.env.XERO_CLOCK_TOLERANCE) || 5] *)
Definition clockTolerance (penv : ProcessEnv) : num :=
  num_or (Number_of_env (XERO_CLOCK_TOLERANCE penv)) (Fin 5).

(** The configuration object the constructor hands to [new XeroClient]. *)
Definition clientConfig (penv : ProcessEnv) : JsVal :=
  JObj (list_to_map
          [("clientId", XERO_CLIENT_ID env);
           ("clientSecret", XERO_CLIENT_SECRET env);
           ("redirectUris", JArr (List.map JStr (redirectUris penv)));
           ("scopes", JArr (List.map JStr (scopes penv)));
           ("httpTimeout", JNum (httpTimeout penv));
           ("clockTolerance", JNum (clockTolerance penv))]).

End Constructor.

(** ** The rest of the class: the exchange *)

(** The [try] block of [getTokenFromCode], with the redirect URI read
    before it. *)
Definition exchangeCode {X} (env : Env X) (code redirectUri : JsVal) : M X JsVal :=
  prefix <- lift (template env redirectUri) ;;
  encoded <- lift (match code with
                   | JStr s => encodeURIComponent env s
                   | _ => Result_bind (ToString env code) (encodeURIComponent env)
                   end) ;;
  let callbackUrl := prefix ++ "?code=" ++ encoded in
  tokenSet <- call_sdk (CallApiCallback callbackUrl) (sdk_apiCallback env callbackUrl) ;;
  setClientTokenSet env tokenSet ;;
  call_sdk CallUpdateTenants (sdk_updateTenants env) ;;
  saveTokenSet env tokenSet ;;
  ret tokenSet.

(** ** The rest of the class: [getAuthorizationUrl] *)

(** What a call of a client method hands back when it does not throw: a
    plain value, or a promise, which is later fulfilled or rejected. *)
Inductive Returned : Type :=
| Plain (v : JsVal)
| Promise (settled : Result JsVal).

(** A method of the wrapped client that is called without [await]. *)
Definition SdkSyncMethod (X : Type) : Type :=
  gmap string JsVal -> X -> Result Returned * gmap string JsVal * X.

Definition call_sync {X} (f : SdkSyncMethod X) : M X Returned :=
  fun w =>
    match f (client w) (ext w) with
    | (r, c', x') => (r, mkWorld c' x' (trace w))
    end.

(** What the caller of an [async] function gets when the function
    [return]s [r]: a returned promise is adopted. *)
Definition settle {X} (r : Returned) : M X JsVal :=
  match r with
  | Plain v => ret v
  | Promise settled => lift settled
  end.

(** [getAuthorizationUrl()]: the call is returned from inside the [try]
    block without [await], so the [catch] block runs when the call itself
    throws, not when the promise it returned is rejected. *)
Definition getAuthorizationUrl {X} (buildConsentUrl : SdkSyncMethod X) : M X JsVal :=
  returned <-
    try_catch (call_sync buildConsentUrl)
      (fun error =>
         throw (Error ("Failed to generate authorization URL: " ++ Exn_toString error))) ;;
  settle returned.

(** ** The example controller [XeroController] *)

(** What a handler throws: an [HttpException] with its response text and
    status, or anything else. *)
Inductive Thrown : Type :=
| Raw (e : Exn)
| HttpException (response : string) (status : Z).

Definition BAD_REQUEST : Z := 400.
Definition INTERNAL_SERVER_ERROR : Z := 500.

(** [error.message] *)
Definition thrown_message (t : Thrown) : string :=
  match t with
  | Raw (JsError _ message) => message
  | HttpException response _ => response
  end.

(** The calls made on the Express response [res]. *)
Inductive ResCall : Type :=
| ResRedirect (url : JsVal)
| ResJson (body : JsVal).

(** The state of a request: the state of the helper, and what was sent. *)
Record Conn (X : Type) : Type := mkConn {
  conn_world : World X;
  sent : list ResCall
}.

Arguments mkConn {X} _ _.
Arguments conn_world {X} _.
Arguments sent {X} _.

Inductive Outcome (A : Type) : Type :=
| Returns (a : A)
| Throws (t : Thrown).

Arguments Returns {A} a.
Arguments Throws {A} t.

Definition H (X A : Type) : Type := Conn X -> Outcome A * Conn X.

Definition hret {X A} (a : A) : H X A := fun s => (Returns a, s).

Definition hthrow {X A} (t : Thrown) : H X A := fun s => (Throws t, s).

Definition hbind {X A B} (m : H X A) (k : A -> H X B) : H X B :=
  fun s =>
    match m s with
    | (Returns a, s') => k a s'
    | (Throws t, s') => (Throws t, s')
    end.

Definition htry_catch {X A} (body : H X A) (handler : Thrown -> H X A) : H X A :=
  fun s =>
    match body s with
    | (Returns a, s') => (Returns a, s')
    | (Throws t, s') => handler t s'
    end.

(** [await this.xeroHelper.m()] *)
Definition helper {X A} (m : M X A) : H X A :=
  fun s =>
    match m (conn_world s) with
    | (Ok a, w') => (Returns a, mkConn w' (sent s))
    | (Throw e, w') => (Throws (Raw e), mkConn w' (sent s))
    end.

(** An expression that may throw. *)
Definition raw {X A} (r : Result A) : H X A :=
  fun s =>
    match r with
    | Ok a => (Returns a, s)
    | Throw e => (Throws (Raw e), s)
    end.

(** [v.length] *)
Definition get_length_strict (v : JsVal) : Result JsVal :=
  match v with
  | JUndefined | JNull => Throw (TypeError "Cannot read properties of undefined")
  | _ => Ok (get_length v)
  end.

Declare Scope http_scope.
Delimit Scope http_scope with http.
Notation "x <- c ;; k" := (hbind c (fun x => k))
  (at level 100, c at next level, k at level 200, right associativity) : http_scope.
Notation "c ;; k" := (hbind c (fun _ => k))
  (at level 100, k at level 200, right associativity) : http_scope.

Section XeroController.

Context {X : Type} (env : Env X).
Context (buildConsentUrl : SdkSyncMethod X).

(** The Express response object: how a call of one of its methods ends. *)
Context (res_send : ResCall -> X -> Result unit * X).

Local Open Scope http_scope.

(** [res.redirect(url)] and [res.json(body)] *)
Definition res_call (call : ResCall) : H X unit :=
  fun s =>
    match res_send call (ext (conn_world s)) with
    | (r, x') =>
        (match r with
         | Ok _ => Returns tt
         | Throw e => Throws (Raw e)
         end,
         mkConn (mkWorld (client (conn_world s)) x' (trace (conn_world s)))
           (sent s ++ [call]))
    end.

(** [connect(res)] *)
Definition connect : H X unit :=
  htry_catch
    (authUrl <- helper (getAuthorizationUrl buildConsentUrl) ;;
     res_call (ResRedirect authUrl))
    (fun _ =>
       hthrow (HttpException "Failed to generate authorization URL" INTERNAL_SERVER_ERROR)).

(** The body of the successful reply of [callback]. *)
Definition callbackReply (expires_at : JsVal) : JsVal :=
  JObj (list_to_map
          [("success", JBool true);
           ("message", JStr "Xero connection established successfully");
           ("tokenSet",
            JObj (list_to_map [("access_token", JStr "***"); ("expires_at", expires_at)]))]).

(** [callback(code, error, res)] *)
Definition callback (code error : JsVal) : H X unit :=
  if truthy error then
    text <- raw (template env error) ;;
    hthrow (HttpException ("OAuth error: " ++ text) BAD_REQUEST)
  else if negb (truthy code) then
    hthrow (HttpException "Authorization code not provided" BAD_REQUEST)
  else
    htry_catch
      (tokenSet <- helper (getTokenFromCode env code) ;;
       expires_at <- raw (get_prop_strict tokenSet "expires_at") ;;
       res_call (ResJson (callbackReply expires_at)))
      (fun error =>
         hthrow (HttpException ("OAuth callback failed: " ++ thrown_message error)
                   INTERNAL_SERVER_ERROR)).

(** [getOrganizations()] *)
Definition getOrganizations : H X JsVal :=
  htry_catch (helper (getTenants env))
    (fun error =>
       hthrow (HttpException ("Failed to get organizations: " ++ thrown_message error)
                 INTERNAL_SERVER_ERROR)).

(** The two replies of [getStatus]. *)
Definition statusReply (connected : bool) (organizations : JsVal) : JsVal :=
  JObj (list_to_map [("connected", JBool connected); ("organizations", organizations)]).

(** [getStatus()]; [tenants.length > 0] converts the length to a number. *)
Definition getStatus : H X JsVal :=
  htry_catch
    (tenants <- helper (getTenants env) ;;
     length <- raw (get_length_strict tenants) ;;
     n <- raw (Number env length) ;;
     hret (statusReply (num_ltb (Fin 0) n) length))
    (fun _ => hret (statusReply false (JNum (Fin 0)))).

End XeroController.

(** ** More sample states *)

Module SampleMore.

Import Sample.

(** No variable set; and two redirect URIs with spaces around them, a zero
    timeout and a clock tolerance of 10. *)
Definition penv_unset : ProcessEnv := mkProcessEnv None None None None.

Definition penv_two : ProcessEnv :=
  mkProcessEnv (Some " https://a.example/cb , https://b.example/cb,")
    None (Some "0") (Some "10").

(** A client that holds the configuration the constructor built. *)
Definition configured (penv : ProcessEnv) : World Outside :=
  world [("config", clientConfig env penv)] None [].

(** The sample environment with a tenant-list call that fails. *)
Definition failingUpdateTenants : SdkMethod Outside unit :=
  fun c x => (Throw (Error "tenants unavailable"), c, x).

Definition env_tenants_down : Env Outside :=
  {| StringToNumber := stringToNumber;
     ObjectToNumber := objectToNumber;
     ToString := toString;
     JSON_stringify := stringify;
     JSON_parse := parse;
     encodeURIComponent := fun s => Ok s;
     Date_now := clock;
     XERO_CLIENT_ID := JStr "client-id";
     XERO_CLIENT_SECRET := JStr "client-secret";
     redis_get := redisGet;
     redis_set := redisSet;
     sdk_setTokenSet := Some setTokenSet;
     sdk_updateTenants := failingUpdateTenants;
     sdk_refreshWithRefreshToken := refreshWithRefreshToken;
     sdk_apiCallback := apiCallback |}.

(** The sample environment with a client that has no [setTokenSet]. *)
Definition env_no_setter : Env Outside :=
  {| StringToNumber := stringToNumber;
     ObjectToNumber := objectToNumber;
     ToString := toString;
     JSON_stringify := stringify;
     JSON_parse := parse;
     encodeURIComponent := fun s => Ok s;
     Date_now := clock;
     XERO_CLIENT_ID := JStr "client-id";
     XERO_CLIENT_SECRET := JStr "client-secret";
     redis_get := redisGet;
     redis_set := redisSet;
     sdk_setTokenSet := None;
     sdk_updateTenants := updateTenants;
     sdk_refreshWithRefreshToken := refreshWithRefreshToken;
     sdk_apiCallback := apiCallback |}.

(** The sample environment with a setter that throws. *)
Definition failingSetTokenSet (tokenSet : JsVal) : SdkMethod Outside unit :=
  fun c x => (Throw (Error "invalid token set"), c, x).

Definition env_setter_down : Env Outside :=
  {| StringToNumber := stringToNumber;
     ObjectToNumber := objectToNumber;
     ToString := toString;
     JSON_stringify := stringify;
     JSON_parse := parse;
     encodeURIComponent := fun s => Ok s;
     Date_now := clock;
     XERO_CLIENT_ID := JStr "client-id";
     XERO_CLIENT_SECRET := JStr "client-secret";
     redis_get := redisGet;
     redis_set := redisSet;
     sdk_setTokenSet := Some failingSetTokenSet;
     sdk_updateTenants := updateTenants;
     sdk_refreshWithRefreshToken := refreshWithRefreshToken;
     sdk_apiCallback := apiCallback |}.

(** The record with refresh token "r1" in the cache, at a time (3000 s)
    when it has expired; the provider does not honour "r1". *)
Definition cached_rejected : World Outside :=
  mkWorld ∅ (mkOutside {[ TOKEN_SET_KEY := text_of fresh_token ]} 3000000 []) [].

Definition cached_rejected_applied : World Outside :=
  snd (setClientTokenSet env fresh_token (snd (loadTokenSet env cached_rejected))).

(** A fresh record in the cache, nothing in memory. *)
Definition cached_fresh : World Outside := world [] (Some fresh_token) [].

Definition cached_fresh_applied : World Outside :=
  snd (setClientTokenSet env_no_setter fresh_token
         (snd (loadTokenSet env_no_setter cached_fresh))).

(** The same states one second and two thousand seconds after the epoch. *)
Definition at_time (ms : N) : World Outside :=
  mkWorld ∅ (mkOutside ∅ ms []) [].

(** URL builders: one whose promise is fulfilled, one whose promise is
    rejected, one that throws when called. *)
Definition buildConsentUrl_ok : SdkSyncMethod Outside :=
  fun c x => (Ok (Promise (Ok (JStr "https://login.example/authorize"))), c, x).

Definition buildConsentUrl_rejects : SdkSyncMethod Outside :=
  fun c x => (Ok (Promise (Throw (Error "discovery failed"))), c, x).

Definition buildConsentUrl_throws : SdkSyncMethod Outside :=
  fun c x => (Throw (Error "no client"), c, x).

(** A response object whose methods succeed. *)
Definition res_ok (call : ResCall) (x : Outside) : Result unit * Outside := (Ok tt, x).

Definition request (w : World Outside) : Conn Outside := mkConn w [].

End SampleMore.

(** Closing a goal about numbers of calls. *)
Ltac count_calls :=
  unfold session_budget, tenant_calls, cache_reads, cache_writes, refresh_calls in *;
  rewrite ?List.filter_app, ?List.length_app in *;
  cbn [List.filter List.length is_tenant_call is_cache_read is_cache_write
       is_refresh_call] in *;
  try lia.

(** Closing a goal about a concrete run by evaluation. *)
Ltac by_computation :=
  vm_compute; first [ reflexivity | discriminate | (intros; discriminate) | exact I ].

(** ** Properties *)

Section Properties.

Context {X : Type} (env : Env X).

Implicit Types (w : World X) (tokenSet stored : JsVal).
Local Open Scope list_scope.

(** *** Running the monad *)

Lemma bind_ok {A B} (m : M X A) (k : A -> M X B) w a w' :
  m w = (Ok a, w') -> bind m k w = k a w'.
Proof. intros H. unfold bind. rewrite H. reflexivity. Qed.

Lemma bind_throw {A B} (m : M X A) (k : A -> M X B) w e w' :
  m w = (Throw e, w') -> bind m k w = (Throw e, w').
Proof. intros H. unfold bind. rewrite H. reflexivity. Qed.

Lemma try_catch_ok {A} (m : M X A) h w a w' :
  m w = (Ok a, w') -> try_catch m h w = (Ok a, w').
Proof. intros H. unfold try_catch. rewrite H. reflexivity. Qed.

Lemma try_catch_throw {A} (m : M X A) h w e w' :
  m w = (Throw e, w') -> try_catch m h w = h e w'.
Proof. intros H. unfold try_catch. rewrite H. reflexivity. Qed.

(** *** The freshness policy *)

Lemma isExpiredOrNearExpiry_run tokenSet w :
  isExpiredOrNearExpiry env tokenSet w
  = (Ok (expired_verdict (nowSeconds env w) (expiresAt_of env tokenSet)), w).
Proof.
  unfold isExpiredOrNearExpiry, try_catch, bind, Date_now_seconds, lift, ret.
  destruct (expiresAt_of env tokenSet); reflexivity.
Qed.

Lemma isFresh_run tokenSet w :
  isFresh env tokenSet w
  = (Ok (negb (expired_verdict (nowSeconds env w) (expiresAt_of env tokenSet))), w).
Proof.
  unfold isFresh. rewrite (bind_ok _ _ _ _ _ (isExpiredOrNearExpiry_run tokenSet w)).
  reflexivity.
Qed.

Lemma nowSeconds_nonneg w : 0 <= nowSeconds env w.
Proof. unfold nowSeconds. apply Z.div_pos; lia. Qed.

Lemma expiresAt_of_never_NaN tokenSet : expiresAt_of env tokenSet <> Ok NaN.
Proof.
  unfold expiresAt_of, Result_bind, num_or.
  destruct (Number env _) as [[|z| |]|]; simpl; try discriminate.
  destruct (z =? 0); discriminate.
Qed.

Lemma expired_verdict_Fin now e :
  expired_verdict now (Ok (Fin e)) = (e =? 0) || (e - now <? 60).
Proof. simpl. rewrite negb_involutive. reflexivity. Qed.

Lemma expiresAt_of_missing tokenSet :
  get_prop tokenSet "expires_at" = JUndefined -> expiresAt_of env tokenSet = Ok (Fin 0).
Proof. intros H. unfold expiresAt_of. rewrite H. reflexivity. Qed.

Lemma expiresAt_of_NaN tokenSet :
  Number env (get_prop tokenSet "expires_at") = Ok NaN -> expiresAt_of env tokenSet = Ok (Fin 0).
Proof. intros H. unfold expiresAt_of. rewrite H. reflexivity. Qed.

Lemma expiresAt_of_positive tokenSet e :
  0 < e ->
  (expiresAt_of env tokenSet = Ok (Fin e)
   <-> Number env (get_prop tokenSet "expires_at") = Ok (Fin e)).
Proof.
  intros He. unfold expiresAt_of, Result_bind, num_or.
  destruct (Number env _) as [[|z| |]|]; simpl.
  - split; intros H; inversion H; lia.
  - destruct (z =? 0) eqn:Hz; simpl.
    + apply Z.eqb_eq in Hz. split; intros H; inversion H; lia.
    + reflexivity.
  - split; discriminate.
  - split; discriminate.
  - split; discriminate.
Qed.

Lemma isFresh_below_margin tokenSet w e :
  expiresAt_of env tokenSet = Ok (Fin e) ->
  e < nowSeconds env w + 60 ->
  isFresh env tokenSet w = (Ok false, w).
Proof.
  intros He H. rewrite isFresh_run, He, expired_verdict_Fin.
  replace (e - nowSeconds env w <? 60) with true by (symmetry; apply Z.ltb_lt; lia).
  rewrite orb_true_r. reflexivity.
Qed.

Lemma isFresh_from_margin tokenSet w e :
  expiresAt_of env tokenSet = Ok (Fin e) ->
  e >= nowSeconds env w + 60 ->
  isFresh env tokenSet w = (Ok true, w).
Proof.
  intros He H. pose proof (nowSeconds_nonneg w) as Hnow.
  rewrite isFresh_run, He, expired_verdict_Fin.
  replace (e =? 0) with false by (symmetry; apply Z.eqb_neq; lia).
  replace (e - nowSeconds env w <? 60) with false by (symmetry; apply Z.ltb_ge; lia).
  reflexivity.
Qed.

Lemma isFresh_missing tokenSet w :
  get_prop tokenSet "expires_at" = JUndefined ->
  isFresh env tokenSet w = (Ok false, w).
Proof. intros H. rewrite isFresh_run, (expiresAt_of_missing _ H). reflexivity. Qed.

Lemma expiresAt_of_infinite tokenSet n :
  n = PosInf \/ n = NegInf ->
  Number env (get_prop tokenSet "expires_at") = Ok n ->
  expiresAt_of env tokenSet = Ok n.
Proof. intros [-> | ->] H; unfold expiresAt_of; rewrite H; reflexivity. Qed.

Lemma expiresAt_of_infinite_inv tokenSet n :
  n = PosInf \/ n = NegInf ->
  expiresAt_of env tokenSet = Ok n ->
  Number env (get_prop tokenSet "expires_at") = Ok n.
Proof.
  unfold expiresAt_of, Result_bind, num_or.
  destruct (Number env _) as [[|z| |]|]; simpl.
  - intros [-> | ->]; discriminate.
  - destruct (z =? 0); simpl; intros [-> | ->]; discriminate.
  - intros _ H. exact H.
  - intros _ H. exact H.
  - intros _ H. discriminate.
Qed.

Lemma isFresh_PosInf tokenSet w :
  expiresAt_of env tokenSet = Ok PosInf -> isFresh env tokenSet w = (Ok true, w).
Proof. intros H. rewrite isFresh_run, H. reflexivity. Qed.

Lemma isFresh_NegInf tokenSet w :
  expiresAt_of env tokenSet = Ok NegInf -> isFresh env tokenSet w = (Ok false, w).
Proof. intros H. rewrite isFresh_run, H. reflexivity. Qed.

(** C2 (amended): the freshness check is false whenever
    [expiresAt < now + 60], true whenever [expiresAt >= now + 60], and false
    whenever [expiresAt] is missing, zero or negative; an infinite
    [expiresAt] included. *)
Theorem isFresh_threshold tokenSet w :
  (forall e, expiresAt_of env tokenSet = Ok (Fin e) ->
     (e < nowSeconds env w + 60 -> isFresh env tokenSet w = (Ok false, w))
     /\ (e >= nowSeconds env w + 60 -> isFresh env tokenSet w = (Ok true, w))
     /\ (e <= 0 -> isFresh env tokenSet w = (Ok false, w)))
  /\ (get_prop tokenSet "expires_at" = JUndefined ->
      isFresh env tokenSet w = (Ok false, w))
  /\ (expiresAt_of env tokenSet = Ok PosInf -> isFresh env tokenSet w = (Ok true, w))
  /\ (expiresAt_of env tokenSet = Ok NegInf -> isFresh env tokenSet w = (Ok false, w)).
Proof.
  pose proof (nowSeconds_nonneg w) as Hnow.
  split; [|split; [|split]].
  - intros e He. repeat split; intros H.
    + apply (isFresh_below_margin _ _ e); assumption.
    + apply (isFresh_from_margin _ _ e); assumption.
    + apply (isFresh_below_margin _ _ e); [assumption | lia].
  - apply isFresh_missing.
  - apply isFresh_PosInf.
  - apply isFresh_NegInf.
Qed.

(** C3: a record is judged fresh if and only if it has a positive
    [expiresAt] with [expiresAt - now >= 60] (a positive integer with that
    margin, or plus infinity); a record with absent, zero or negative
    [expiresAt] (minus infinity included) is never judged fresh. *)
Theorem isFresh_iff_positive_and_margin tokenSet w :
  (exists b, isFresh env tokenSet w = (Ok b, w))
  /\ (isFresh env tokenSet w = (Ok true, w)
      <-> (exists e, Number env (get_prop tokenSet "expires_at") = Ok (Fin e)
                     /\ 0 < e /\ e - nowSeconds env w >= 60)
          \/ Number env (get_prop tokenSet "expires_at") = Ok PosInf)
  /\ (forall e, expiresAt_of env tokenSet = Ok (Fin e) -> e <= 0 ->
        isFresh env tokenSet w = (Ok false, w))
  /\ (get_prop tokenSet "expires_at" = JUndefined ->
      isFresh env tokenSet w = (Ok false, w))
  /\ (Number env (get_prop tokenSet "expires_at") = Ok NegInf ->
      isFresh env tokenSet w = (Ok false, w)).
Proof.
  pose proof (nowSeconds_nonneg w) as Hnow.
  split; [|split; [|split; [|split]]].
  - eexists. apply isFresh_run.
  - split.
    + rewrite isFresh_run. intros H.
      assert (Hv : expired_verdict (nowSeconds env w) (expiresAt_of env tokenSet) = false).
      { inversion H as [Hb]. apply negb_true_iff in Hb. exact Hb. }
      destruct (expiresAt_of env tokenSet) as [[|e| |]|] eqn:He; try discriminate.
      * left. rewrite expired_verdict_Fin in Hv. apply orb_false_iff in Hv as [H0 Hlt].
        apply Z.eqb_neq in H0. apply Z.ltb_ge in Hlt.
        assert (0 < e) by lia.
        exists e. split; [|lia]. apply expiresAt_of_positive; assumption.
      * right. apply expiresAt_of_infinite_inv; [left; reflexivity | exact He].
    + intros [(e & He & Hpos & Hm) | Hinf].
      * apply expiresAt_of_positive in He; [|assumption].
        apply (isFresh_from_margin _ _ e); [assumption | lia].
      * apply isFresh_PosInf.
        apply expiresAt_of_infinite; [left; reflexivity | exact Hinf].
  - intros e He Hle. apply (isFresh_below_margin _ _ e); [assumption | lia].
  - apply isFresh_missing.
  - intros Hinf. apply isFresh_NegInf.
    apply expiresAt_of_infinite; [right; reflexivity | exact Hinf].
Qed.

(** C10 (amended): the freshness check is total and never throws,
    whatever the shape of its argument: it returns a verdict and leaves the
    state alone; a [null] or [undefined] record, an absent [expires_at] and
    an [expires_at] that converts to [NaN] are coerced to 0 and reported
    expired, and so is an [expires_at] whose conversion throws.  An
    [expires_at] that converts to an infinity is not coerced: plus infinity
    is reported not expired, minus infinity expired. *)
Theorem isExpiredOrNearExpiry_total tokenSet w :
  (exists b, isExpiredOrNearExpiry env tokenSet w = (Ok b, w))
  /\ (tokenSet = JNull \/ tokenSet = JUndefined ->
      expiresAt_of env tokenSet = Ok (Fin 0)
      /\ isExpiredOrNearExpiry env tokenSet w = (Ok true, w))
  /\ (get_prop tokenSet "expires_at" = JUndefined ->
      expiresAt_of env tokenSet = Ok (Fin 0)
      /\ isExpiredOrNearExpiry env tokenSet w = (Ok true, w))
  /\ (Number env (get_prop tokenSet "expires_at") = Ok NaN ->
      expiresAt_of env tokenSet = Ok (Fin 0)
      /\ isExpiredOrNearExpiry env tokenSet w = (Ok true, w))
  /\ (forall e, Number env (get_prop tokenSet "expires_at") = Throw e ->
      isExpiredOrNearExpiry env tokenSet w = (Ok true, w))
  /\ (Number env (get_prop tokenSet "expires_at") = Ok PosInf ->
      expiresAt_of env tokenSet = Ok PosInf
      /\ isExpiredOrNearExpiry env tokenSet w = (Ok false, w))
  /\ (Number env (get_prop tokenSet "expires_at") = Ok NegInf ->
      expiresAt_of env tokenSet = Ok NegInf
      /\ isExpiredOrNearExpiry env tokenSet w = (Ok true, w)).
Proof.
  split; [|split; [|split; [|split; [|split; [|split]]]]].
  - eexists. apply isExpiredOrNearExpiry_run.
  - intros [-> | ->]; (split; [reflexivity|]);
      rewrite isExpiredOrNearExpiry_run; reflexivity.
  - intros H. split; [apply expiresAt_of_missing; exact H|].
    rewrite isExpiredOrNearExpiry_run, (expiresAt_of_missing _ H). reflexivity.
  - intros H. split; [apply expiresAt_of_NaN; exact H|].
    rewrite isExpiredOrNearExpiry_run, (expiresAt_of_NaN _ H). reflexivity.
  - intros e H. rewrite isExpiredOrNearExpiry_run.
    unfold expiresAt_of. rewrite H. reflexivity.
  - intros H.
    assert (He : expiresAt_of env tokenSet = Ok PosInf)
      by (apply expiresAt_of_infinite; [left; reflexivity | exact H]).
    split; [exact He|]. rewrite isExpiredOrNearExpiry_run, He. reflexivity.
  - intros H.
    assert (He : expiresAt_of env tokenSet = Ok NegInf)
      by (apply expiresAt_of_infinite; [right; reflexivity | exact H]).
    split; [exact He|]. rewrite isExpiredOrNearExpiry_run, He. reflexivity.
Qed.

(** *** The token cache adapter *)

Lemma tenant_calls_app (a b : list Event) :
  tenant_calls (a ++ b) = (tenant_calls a + tenant_calls b)%nat.
Proof. unfold tenant_calls. rewrite List.filter_app, List.length_app. reflexivity. Qed.

Lemma quiet_step_refl w : quiet_step w w.
Proof. exists []. rewrite app_nil_r. split; reflexivity. Qed.

Lemma quiet_step_trans w1 w2 w3 :
  quiet_step w1 w2 -> quiet_step w2 w3 -> quiet_step w1 w3.
Proof.
  intros (e1 & H1 & T1) (e2 & H2 & T2). exists (e1 ++ e2).
  rewrite H2, H1, <- app_assoc, tenant_calls_app, T1, T2. split; reflexivity.
Qed.

Lemma quiet_step_calls w w' : quiet_step w w' -> tenant_calls (trace w') = tenant_calls (trace w).
Proof. intros (evs & -> & T). rewrite tenant_calls_app, T. lia. Qed.

Lemma quiet_step_emit c x t (evs : list Event) w :
  trace w = t -> tenant_calls evs = 0%nat -> quiet_step w (mkWorld c x (t ++ evs)).
Proof. intros <- T. exists evs. split; [reflexivity | exact T]. Qed.

Lemma saveTokenSet_run tokenSet w :
  exists w', saveTokenSet env tokenSet w = (Ok tt, w')
             /\ client w' = client w /\ quiet_step w w'.
Proof.
  unfold saveTokenSet, try_catch, bind, lift, call_redis, console_error, emit.
  destruct (JSON_stringify env _) as [data|e]; simpl.
  - destruct (redis_set env TOKEN_SET_KEY data (ext w)) as [[[]|e] x'] eqn:Hset; simpl.
    + eexists. split; [reflexivity|]. split; [reflexivity|].
      apply quiet_step_emit; reflexivity.
    + eexists. split; [reflexivity|]. split; [reflexivity|]. simpl.
      rewrite <- app_assoc. apply quiet_step_emit; reflexivity.
  - eexists. split; [reflexivity|]. split; [reflexivity|].
    destruct w; apply quiet_step_emit; reflexivity.
Qed.

Lemma loadTokenSet_run w :
  exists v w', loadTokenSet env w = (Ok v, w')
               /\ client w' = client w /\ quiet_step w w'.
Proof.
  unfold loadTokenSet, try_catch, bind, lift, call_redis, console_error, emit, ret.
  destruct (redis_get env TOKEN_SET_KEY (ext w)) as [[[[|c raw]|]|e] x'] eqn:Hget; simpl.
  - do 2 eexists. split; [reflexivity|]. split; [reflexivity|].
    apply quiet_step_emit; reflexivity.
  - destruct (JSON_parse env (String c raw)) as [v|e]; simpl.
    + do 2 eexists. split; [reflexivity|]. split; [reflexivity|].
      apply quiet_step_emit; reflexivity.
    + do 2 eexists. split; [reflexivity|]. split; [reflexivity|].
      rewrite <- app_assoc. apply quiet_step_emit; reflexivity.
  - do 2 eexists. split; [reflexivity|]. split; [reflexivity|].
    apply quiet_step_emit; reflexivity.
  - do 2 eexists. split; [reflexivity|]. split; [reflexivity|].
    rewrite <- app_assoc. apply quiet_step_emit; reflexivity.
Qed.

Lemma loadTokenSet_hit w raw x1 v :
  redis_get env TOKEN_SET_KEY (ext w) = (Ok (Some raw), x1) ->
  raw <> EmptyString ->
  JSON_parse env raw = Ok v ->
  loadTokenSet env w
  = (Ok v, mkWorld (client w) x1 (trace w ++ [CallRedisGet TOKEN_SET_KEY])).
Proof.
  intros Hget Hraw Hparse.
  unfold loadTokenSet, try_catch, bind, lift, call_redis. rewrite Hget.
  destruct raw as [|c raw]; [congruence|]. rewrite Hparse. reflexivity.
Qed.

Lemma loadTokenSet_miss w x1 :
  redis_get env TOKEN_SET_KEY (ext w) = (Ok None, x1) ->
  loadTokenSet env w
  = (Ok JNull, mkWorld (client w) x1 (trace w ++ [CallRedisGet TOKEN_SET_KEY])).
Proof.
  intros Hget. unfold loadTokenSet, try_catch, bind, lift, call_redis. rewrite Hget.
  reflexivity.
Qed.

(** Once the exchange, the update of the client and the tenant refresh have
    succeeded, [getTokenFromCode] returns the token set, whatever the write
    to the cache does. *)
Lemma getTokenFromCode_returns_after_exchange w s prefix encoded token c1 x1 w2 c3 x3 :
  trim s <> EmptyString ->
  truthy (configuredRedirectUri w) = true ->
  template env (configuredRedirectUri w) = Ok prefix ->
  encodeURIComponent env s = Ok encoded ->
  sdk_apiCallback env (prefix ++ "?code=" ++ encoded)%string (client w) (ext w)
  = (Ok token, c1, x1) ->
  setClientTokenSet env token
    (mkWorld c1 x1 (trace w ++ [CallApiCallback (prefix ++ "?code=" ++ encoded)%string]))
  = (Ok tt, w2) ->
  sdk_updateTenants env (client w2) (ext w2) = (Ok tt, c3, x3) ->
  exists w4, getTokenFromCode env (JStr s) w = (Ok token, w4).
Proof.
  intros Hs Huri Hprefix Henc Hcb Hset Hten.
  destruct (saveTokenSet_run token (mkWorld c3 x3 (trace w2 ++ [CallUpdateTenants])))
    as (w4 & Hsave & _).
  exists w4.
  assert (Ht : truthy (JStr (trim s)) = true).
  { simpl. destruct (trim s); [congruence | reflexivity]. }
  unfold getTokenFromCode. unfold bind at 1, lift, optional_trim. rewrite Ht.
  cbn [negb]. unfold bind at 1. rewrite Huri. cbn [negb].
  apply try_catch_ok.
  unfold bind at 1, lift. rewrite Hprefix.
  unfold bind at 1. rewrite Henc.
  unfold bind at 1, call_sdk. rewrite Hcb.
  rewrite (bind_ok _ _ _ _ _ Hset).
  unfold bind at 1. rewrite Hten.
  rewrite (bind_ok _ _ _ _ _ Hsave). reflexivity.
Qed.

(** C7: the token cache adapter never propagates an error.  [saveTokenSet]
    always returns; a failed write is logged and swallowed, so that it
    never aborts a token exchange that has succeeded.  [loadTokenSet]
    always returns; it returns [null] when the key is missing, when the
    stored text does not parse (the failure is logged), and when the read
    itself fails. *)
Theorem cache_adapter_never_throws tokenSet w :
  (exists w', saveTokenSet env tokenSet w = (Ok tt, w'))
  /\ (forall data e x',
        JSON_stringify env (if truthy tokenSet then tokenSet else JObj ∅) = Ok data ->
        redis_set env TOKEN_SET_KEY data (ext w) = (Throw e, x') ->
        saveTokenSet env tokenSet w
        = (Ok tt, mkWorld (client w) x'
                    (trace w ++ [CallRedisSet TOKEN_SET_KEY data;
                                 ConsoleError "Failed to save token set:" e])))
  /\ (forall s prefix encoded token c1 x1 w2 c3 x3,
        trim s <> EmptyString ->
        truthy (configuredRedirectUri w) = true ->
        template env (configuredRedirectUri w) = Ok prefix ->
        encodeURIComponent env s = Ok encoded ->
        sdk_apiCallback env (prefix ++ "?code=" ++ encoded)%string (client w) (ext w)
        = (Ok token, c1, x1) ->
        setClientTokenSet env token
          (mkWorld c1 x1
             (trace w ++ [CallApiCallback (prefix ++ "?code=" ++ encoded)%string]))
        = (Ok tt, w2) ->
        sdk_updateTenants env (client w2) (ext w2) = (Ok tt, c3, x3) ->
        exists w4, getTokenFromCode env (JStr s) w = (Ok token, w4))
  /\ (exists v w', loadTokenSet env w = (Ok v, w'))
  /\ (forall x',
        redis_get env TOKEN_SET_KEY (ext w) = (Ok None, x') ->
        loadTokenSet env w
        = (Ok JNull, mkWorld (client w) x' (trace w ++ [CallRedisGet TOKEN_SET_KEY])))
  /\ (forall raw e x',
        redis_get env TOKEN_SET_KEY (ext w) = (Ok (Some raw), x') ->
        JSON_parse env raw = Throw e ->
        exists w', loadTokenSet env w = (Ok JNull, w'))
  /\ (forall e x',
        redis_get env TOKEN_SET_KEY (ext w) = (Throw e, x') ->
        loadTokenSet env w
        = (Ok JNull, mkWorld (client w) x'
                       (trace w ++ [CallRedisGet TOKEN_SET_KEY;
                                    ConsoleError "Failed to load token set:" e]))).
Proof.
  split; [|split; [|split; [|split; [|split; [|split]]]]].
  - destruct (saveTokenSet_run tokenSet w) as (w' & H & _). exists w'. exact H.
  - intros data e x' Hs Hset.
    unfold saveTokenSet, try_catch, bind, lift, call_redis, console_error, emit.
    rewrite Hs, Hset. simpl. rewrite <- app_assoc. reflexivity.
  - intros s prefix encoded token c1 x1 w2 c3 x3.
    apply getTokenFromCode_returns_after_exchange.
  - destruct (loadTokenSet_run w) as (v & w' & H & _). exists v, w'. exact H.
  - intros x' Hget. apply loadTokenSet_miss. exact Hget.
  - intros raw e x' Hget Hparse.
    unfold loadTokenSet, try_catch, bind, lift, call_redis, console_error, emit, ret.
    rewrite Hget. destruct raw as [|c raw]; simpl.
    + eexists. reflexivity.
    + rewrite Hparse. simpl. eexists. reflexivity.
  - intros e x' Hget.
    unfold loadTokenSet, try_catch, bind, lift, call_redis, console_error, emit, ret.
    rewrite Hget. simpl. rewrite <- app_assoc. reflexivity.
Qed.

(** *** The session manager *)

Lemma setClientTokenSet_quiet tokenSet w r w' :
  setClientTokenSet env tokenSet w = (r, w') -> quiet_step w w'.
Proof.
  unfold setClientTokenSet, call_sdk, write_client, ret.
  destruct (truthy tokenSet); simpl.
  - destruct (sdk_setTokenSet env) as [f|].
    + destruct (f tokenSet (client w) (ext w)) as [[r' c'] x'].
      intros H. inversion H; subst. apply quiet_step_emit; reflexivity.
    + intros H. inversion H; subst. exists []. simpl. rewrite app_nil_r.
      split; reflexivity.
  - intros H. inversion H; subst. apply quiet_step_refl.
Qed.

Lemma currentTokenSetIsFresh_run w :
  currentTokenSetIsFresh env w
  = (Ok (truthy (client_field w "tokenSet")
         && negb (expired_verdict (nowSeconds env w)
                    (expiresAt_of env (client_field w "tokenSet")))), w).
Proof.
  unfold currentTokenSetIsFresh, bind, read_client.
  destruct (truthy (client_field w "tokenSet")); simpl.
  - apply isFresh_run.
  - reflexivity.
Qed.

(** The calls of the [try] block when the loaded record carries a refresh
    token: the refresh call comes first, and no tenant-list call follows. *)
Lemma tryRefresh_calls stored w r w' :
  truthy (get_prop stored "refresh_token") = true ->
  tryRefresh env stored w = (r, w') ->
  exists rest,
    trace w' = trace w ++
      CallRefreshWithRefreshToken (XERO_CLIENT_ID env) (XERO_CLIENT_SECRET env)
        (get_prop stored "refresh_token") :: rest
    /\ tenant_calls rest = 0%nat.
Proof.
  intros Hrt. unfold tryRefresh. rewrite Hrt.
  assert (Hs : get_prop_strict stored "refresh_token" = Ok (get_prop stored "refresh_token")).
  { destruct stored; try reflexivity; discriminate. }
  rewrite Hs. unfold bind at 1, lift. unfold bind at 1, call_sdk.
  destruct (sdk_refreshWithRefreshToken env _ _ _ (client w) (ext w))
    as [[[refreshed|e] c3] x3].
  - destruct (truthy refreshed).
    + unfold bind at 1.
      destruct (setClientTokenSet env refreshed _) as [[[]|e] w4] eqn:Hset;
        apply setClientTokenSet_quiet in Hset; destruct Hset as (e1 & T1 & Q1);
        simpl in T1.
      * unfold bind, ret.
        destruct (saveTokenSet_run refreshed w4) as (w5 & Hsave & _ & (e2 & T2 & Q2)).
        rewrite Hsave. intros H. inversion H; subst.
        exists (e1 ++ e2). rewrite T2, T1, <- !app_assoc, tenant_calls_app, Q1, Q2.
        split; reflexivity.
      * intros H. inversion H; subst. exists e1. rewrite T1, <- app_assoc.
        split; [reflexivity | exact Q1].
    + unfold ret. intros H. inversion H; subst. exists []. split; reflexivity.
  - intros H. inversion H; subst. exists []. split; reflexivity.
Qed.

(** The path of [ensureAuthenticated] that reaches the [try] block with a
    loaded record. *)
Lemma ensureAuthenticated_stale_path w raw x1 stored w2 :
  currentTokenSetIsFresh env w = (Ok false, w) ->
  redis_get env TOKEN_SET_KEY (ext w) = (Ok (Some raw), x1) ->
  raw <> EmptyString ->
  JSON_parse env raw = Ok stored ->
  truthy stored = true ->
  setClientTokenSet env stored
    (mkWorld (client w) x1 (trace w ++ [CallRedisGet TOKEN_SET_KEY])) = (Ok tt, w2) ->
  isFresh env stored w2 = (Ok false, w2) ->
  ensureAuthenticated env w
  = bind (try_catch (tryRefresh env stored)
            (fun error => console_error "Token refresh failed:" error ;; ret false))
      (fun refreshed => if refreshed then ret tt else throw authenticationRequired) w2.
Proof.
  intros Hcur Hget Hraw Hparse Htruthy Hset Hstale.
  unfold ensureAuthenticated.
  rewrite (bind_ok _ _ _ _ _ Hcur). cbv beta iota.
  rewrite (bind_ok _ _ _ _ _ (loadTokenSet_hit _ _ _ _ Hget Hraw Hparse)).
  rewrite Htruthy.
  erewrite (bind_ok (setClientTokenSet env stored ;; isFresh env stored)).
  2:{ rewrite (bind_ok _ _ _ _ _ Hset). exact Hstale. }
  reflexivity.
Qed.

(** C8: when the client already holds a fresh token record,
    [ensureAuthenticated] returns at once and changes nothing: no cache
    read, no cache write, no refresh call, the same token state.  Any number
    of calls in a row does the same. *)
Theorem ensureAuthenticated_fresh_is_noop w tokenSet :
  client w !! "tokenSet" = Some tokenSet ->
  truthy tokenSet = true ->
  isFresh env tokenSet w = (Ok true, w) ->
  ensureAuthenticated env w = (Ok tt, w)
  /\ forall n, repeatM n (ensureAuthenticated env) w = (Ok tt, w).
Proof.
  intros Hheld Htruthy Hfresh.
  assert (Hcur : currentTokenSetIsFresh env w = (Ok true, w)).
  { unfold currentTokenSetIsFresh, bind, read_client, client_field.
    rewrite Hheld. simpl. rewrite Htruthy. exact Hfresh. }
  assert (Hone : ensureAuthenticated env w = (Ok tt, w)).
  { unfold ensureAuthenticated. rewrite (bind_ok _ _ _ _ _ Hcur). reflexivity. }
  split; [exact Hone|].
  induction n as [|n IH]; simpl.
  - reflexivity.
  - rewrite (bind_ok _ _ _ _ _ Hone). exact IH.
Qed.

(** C1 (amended): when no fresh token is held in memory and the record
    loaded from the cache is applied to the client without error, is not
    fresh and carries a refresh token, the refresh operation of the wrapped
    client is called with the configured client id and secret and that
    refresh token; when it returns a record and that record too is applied
    to the client without error, the record is saved to the cache and
    [ensureAuthenticated] returns without error. *)
Theorem ensureAuthenticated_refreshes_loaded_token w raw x1 stored w2 :
  currentTokenSetIsFresh env w = (Ok false, w) ->
  redis_get env TOKEN_SET_KEY (ext w) = (Ok (Some raw), x1) ->
  raw <> EmptyString ->
  JSON_parse env raw = Ok stored ->
  truthy stored = true ->
  setClientTokenSet env stored
    (mkWorld (client w) x1 (trace w ++ [CallRedisGet TOKEN_SET_KEY])) = (Ok tt, w2) ->
  isFresh env stored w2 = (Ok false, w2) ->
  truthy (get_prop stored "refresh_token") = true ->
  let refresh_token := get_prop stored "refresh_token" in
  let refresh_call :=
    CallRefreshWithRefreshToken (XERO_CLIENT_ID env) (XERO_CLIENT_SECRET env) refresh_token in
  (exists r w' rest,
      ensureAuthenticated env w = (r, w')
      /\ trace w' = trace w2 ++ refresh_call :: rest)
  /\ (forall refreshed c3 x3 w4,
        sdk_refreshWithRefreshToken env (XERO_CLIENT_ID env) (XERO_CLIENT_SECRET env)
          refresh_token (client w2) (ext w2) = (Ok refreshed, c3, x3) ->
        truthy refreshed = true ->
        setClientTokenSet env refreshed (mkWorld c3 x3 (trace w2 ++ [refresh_call]))
        = (Ok tt, w4) ->
        exists w5,
          saveTokenSet env refreshed w4 = (Ok tt, w5)
          /\ ensureAuthenticated env w = (Ok tt, w5)).
Proof.
  intros Hcur Hget Hraw Hparse Htruthy Hset Hstale Hrt refresh_token refresh_call.
  pose proof (ensureAuthenticated_stale_path _ _ _ _ _ Hcur Hget Hraw Hparse Htruthy Hset Hstale)
    as Hpath.
  split.
  - rewrite Hpath. unfold bind at 1, try_catch.
    destruct (tryRefresh env stored w2) as [[[|]|e] w'] eqn:Htry;
      destruct (tryRefresh_calls _ _ _ _ Hrt Htry) as (rest & T & _).
    + exists (Ok tt), w', rest. split; [reflexivity | exact T].
    + exists (Throw authenticationRequired), w', rest. split; [reflexivity | exact T].
    + unfold bind, console_error, emit, ret, throw. simpl.
      do 3 eexists. split; [reflexivity|]. simpl. rewrite T, <- app_assoc. reflexivity.
  - intros refreshed c3 x3 w4 Hrefresh Hok Happly.
    destruct (saveTokenSet_run refreshed w4) as (w5 & Hsave & _).
    exists w5. split; [exact Hsave|].
    rewrite Hpath.
    assert (Htry : tryRefresh env stored w2 = (Ok true, w5)).
    { unfold tryRefresh. rewrite Hrt.
      assert (Hs : get_prop_strict stored "refresh_token" = Ok refresh_token).
      { destruct stored; try reflexivity; discriminate. }
      rewrite Hs. unfold bind at 1, lift. unfold bind at 1, call_sdk.
      fold refresh_token. rewrite Hrefresh. rewrite Hok.
      fold refresh_call. rewrite (bind_ok _ _ _ _ _ Happly).
      rewrite (bind_ok _ _ _ _ _ Hsave). reflexivity. }
    rewrite (bind_ok _ _ _ _ _ (try_catch_ok _ _ _ _ _ Htry)). reflexivity.
Qed.

(** *** The public operations *)

Lemma tryRefresh_without_refresh_token stored w :
  truthy (get_prop stored "refresh_token") = false ->
  tryRefresh env stored w = (Ok false, w).
Proof. intros H. unfold tryRefresh. rewrite H. reflexivity. Qed.

(** What [getTenants] returns, when it returns. *)
Lemma getTenants_value w v w' :
  getTenants env w = (Ok v, w') ->
  v = if truthy (client_field w' "tenants") then client_field w' "tenants" else JArr [].
Proof.
  unfold getTenants. unfold bind at 1.
  destruct (ensureAuthenticated env w) as [[[]|e] w1]; [|discriminate].
  unfold try_catch, bind, read_client, call_sdk, ret, throw.
  destruct (negb (truthy (client_field w1 "tenants"))
            || strict_eq_zero (get_length (client_field w1 "tenants"))).
  - destruct (sdk_updateTenants env (client w1) (ext w1)) as [[[[]|e] c'] x'].
    + intros H. inversion H; subst. reflexivity.
    + discriminate.
  - intros H. inversion H; subst. reflexivity.
Qed.

(** C6 (amended): when no fresh token is held in memory and the cache holds
    a token record whose [expires_at] is in the past and which has no
    refresh token, [getTenants] fails with the authentication-required
    error and makes no tenant-list call (the loaded record being applied to
    the client without error). *)
Theorem getTenants_authentication_required w raw x1 stored w2 e :
  currentTokenSetIsFresh env w = (Ok false, w) ->
  redis_get env TOKEN_SET_KEY (ext w) = (Ok (Some raw), x1) ->
  raw <> EmptyString ->
  JSON_parse env raw = Ok stored ->
  truthy stored = true ->
  setClientTokenSet env stored
    (mkWorld (client w) x1 (trace w ++ [CallRedisGet TOKEN_SET_KEY])) = (Ok tt, w2) ->
  expiresAt_of env stored = Ok (Fin e) ->
  e < nowSeconds env w2 ->
  truthy (get_prop stored "refresh_token") = false ->
  getTenants env w = (Throw authenticationRequired, w2)
  /\ tenant_calls (trace w2) = tenant_calls (trace w).
Proof.
  intros Hcur Hget Hraw Hparse Htruthy Hset Hexp Hpast Hrt.
  assert (Hstale : isFresh env stored w2 = (Ok false, w2)).
  { apply (isFresh_below_margin _ _ e); [assumption | lia]. }
  split.
  - unfold getTenants. apply bind_throw.
    rewrite (ensureAuthenticated_stale_path _ _ _ _ _ Hcur Hget Hraw Hparse Htruthy Hset Hstale).
    rewrite (bind_ok _ _ _ _ _
               (try_catch_ok _ _ _ _ _ (tryRefresh_without_refresh_token _ w2 Hrt))).
    reflexivity.
  - apply setClientTokenSet_quiet in Hset. apply quiet_step_calls in Hset.
    rewrite Hset. cbn [trace]. rewrite tenant_calls_app.
    unfold tenant_calls. simpl. lia.
Qed.

(** C9: whatever [getTenants] returns is neither [null] nor [undefined];
    it is the empty array when the client's tenant field is still unset
    after the refresh attempt, and an array whenever that field holds what
    its type says (an array, or nothing). *)
Theorem getTenants_returns_array w v w' :
  getTenants env w = (Ok v, w') ->
  v <> JNull /\ v <> JUndefined
  /\ (truthy (client_field w' "tenants") = false -> v = JArr [])
  /\ (array_or_unset (client_field w' "tenants") -> exists l, v = JArr l).
Proof.
  intros H. apply getTenants_value in H. subst v.
  destruct (truthy (client_field w' "tenants")) eqn:Ht.
  - repeat split.
    + intros Hn. rewrite Hn in Ht. discriminate.
    + intros Hu. rewrite Hu in Ht. discriminate.
    + discriminate.
    + destruct (client_field w' "tenants"); simpl; try contradiction; try discriminate.
      intros _. eexists. reflexivity.
  - repeat split; try discriminate. intros _. eexists. reflexivity.
Qed.

(** C4: the active tenant is the second entry of the tenant list: with at
    least two entries [getActiveTenantId] returns the [tenantId] of the
    entry at index 1, and with fewer than two entries (one entry included)
    it fails with "No connected Xero tenant found". *)
Theorem getActiveTenantId_second_entry w w1 w2 (l : list JsVal) :
  ensureAuthenticated env w = (Ok tt, w1) ->
  getTenants env w1 = (Ok (JArr l), w2) ->
  ((2 <= List.length l)%nat ->
   truthy (get_prop (nth 1 l JUndefined) "tenantId") = true ->
   getActiveTenantId env w = (Ok (get_prop (nth 1 l JUndefined) "tenantId"), w2))
  /\ ((List.length l < 2)%nat ->
      getActiveTenantId env w = (Throw (Error "No connected Xero tenant found"), w2)).
Proof.
  intros Hauth Hten.
  assert (Hrun : getActiveTenantId env w
                 = (let tenantId := get_prop (nth 1 l JUndefined) "tenantId" in
                    if negb (truthy tenantId)
                    then throw (Error "No connected Xero tenant found")
                    else ret tenantId) w2).
  { unfold getActiveTenantId.
    rewrite (bind_ok _ _ _ _ _ Hauth), (bind_ok _ _ _ _ _ Hten). reflexivity. }
  split.
  - intros _ Hid. rewrite Hrun. cbv zeta. rewrite Hid. reflexivity.
  - intros Hlen. rewrite Hrun.
    assert (Hnth : nth 1 l JUndefined = JUndefined).
    { destruct l as [|a [|b l]]; simpl in *; try reflexivity; lia. }
    cbv zeta. rewrite Hnth. reflexivity.
Qed.

(** C5 (amended): [getTokenFromCode] fails with "Authorization code is
    required" before any call when the code is the empty string and when it
    is [undefined]; for every code that is not blank, it fails with the
    distinct error "XERO_REDIRECT_URIS not configured", still before any
    call, when no redirect URI is configured. *)
Theorem getTokenFromCode_fails_before_any_call w :
  getTokenFromCode env (JStr EmptyString) w
  = (Throw (Error "Authorization code is required"), w)
  /\ getTokenFromCode env JUndefined w
     = (Throw (Error "Authorization code is required"), w)
  /\ (forall s,
        trim s <> EmptyString ->
        truthy (configuredRedirectUri w) = false ->
        getTokenFromCode env (JStr s) w
        = (Throw (Error "XERO_REDIRECT_URIS not configured"), w))
  /\ Error "XERO_REDIRECT_URIS not configured" <> Error "Authorization code is required".
Proof.
  split; [reflexivity|]. split; [reflexivity|]. split; [|discriminate].
  intros s Hs Huri.
  unfold getTokenFromCode, bind, lift, optional_trim.
  assert (Ht : truthy (JStr (trim s)) = true).
  { simpl. destruct (trim s); [congruence | reflexivity]. }
  rewrite Ht. simpl. rewrite Huri. reflexivity.
Qed.

End Properties.

(** ** The statements on concrete states *)

Module Runs.

Import Sample.

Local Open Scope list_scope.

(** C1, as stated, fails: a stale record with a refresh token held in
    memory only is never refreshed. *)
Lemma ensureAuthenticated_memory_only_counterexample :
  client_field memory_stale "tokenSet" = stale_token
  /\ isFresh env stale_token memory_stale = (Ok false, memory_stale)
  /\ truthy (get_prop stale_token "refresh_token") = true
  /\ fst (ensureAuthenticated env memory_stale) = Throw authenticationRequired
  /\ trace (snd (ensureAuthenticated env memory_stale)) = [CallRedisGet TOKEN_SET_KEY].
Proof. repeat split; by_computation. Qed.

Lemma ensureAuthenticated_refreshes_loaded_token_witness :
  exists w5, ensureAuthenticated env cached_stale = (Ok tt, w5).
Proof.
  unshelve epose proof
    (ensureAuthenticated_refreshes_loaded_token env cached_stale
       (text_of stale_token) (ext cached_stale) stale_token cached_stale_applied
       _ _ _ _ _ _ _ _) as H; [by_computation .. | ].
  destruct H as [_ Hsuccess].
  unshelve epose proof
    (Hsuccess fresh_token (client cached_stale_applied) (ext cached_stale_applied)
       (snd (setClientTokenSet env fresh_token cached_stale_refreshed)) _ _ _) as H;
    [by_computation .. | ].
  destruct H as (w5 & _ & Hrun).
  exists w5. exact Hrun.
Defined.

(** C2, as stated, fails at the margin: with [expiresAt = now + 60] the
    record is fresh. *)
Lemma isFresh_at_margin_counterexample :
  expiresAt_of env boundary_token = Ok (Fin 1060)
  /\ nowSeconds env empty_world = 1000
  /\ 1060 <= 1000 + 60
  /\ isFresh env boundary_token empty_world = (Ok true, empty_world).
Proof. repeat split; by_computation. Qed.

Lemma isFresh_threshold_witness :
  isFresh env stale_token empty_world = (Ok false, empty_world)
  /\ isFresh env boundary_token empty_world = (Ok true, empty_world)
  /\ isFresh env (JObj ∅) empty_world = (Ok false, empty_world).
Proof.
  split; [|split].
  - destruct (isFresh_threshold env stale_token empty_world) as [H _].
    destruct (H 900) as (Hlt & _); [by_computation|]. apply Hlt. by_computation.
  - destruct (isFresh_threshold env boundary_token empty_world) as [H _].
    destruct (H 1060) as (_ & Hge & _); [by_computation|]. apply Hge. by_computation.
  - destruct (isFresh_threshold env (JObj ∅) empty_world) as (_ & H & _).
    apply H. by_computation.
Defined.

Lemma isFresh_iff_positive_and_margin_witness :
  isFresh env fresh_token empty_world = (Ok true, empty_world)
  /\ isFresh env JNull empty_world = (Ok false, empty_world).
Proof.
  split.
  - destruct (isFresh_iff_positive_and_margin env fresh_token empty_world)
      as (_ & Hiff & _).
    apply Hiff. left. exists 2800. repeat split; by_computation.
  - destruct (isFresh_iff_positive_and_margin env JNull empty_world)
      as (_ & _ & _ & Hmissing & _).
    apply Hmissing. by_computation.
Defined.

Lemma getActiveTenantId_second_entry_witness :
  getActiveTenantId env two_tenants = (Ok (JStr "t1"), two_tenants)
  /\ getActiveTenantId env one_tenant
     = (Throw (Error "No connected Xero tenant found"), one_tenant).
Proof.
  split.
  - unshelve epose proof
      (getActiveTenantId_second_entry env two_tenants two_tenants two_tenants
         [tenant "t0"; tenant "t1"] _ _) as H; [by_computation .. | ].
    destruct H as [Htwo _].
    rewrite Htwo; [by_computation | simpl; lia | by_computation].
  - unshelve epose proof
      (getActiveTenantId_second_entry env one_tenant one_tenant one_tenant
         [tenant "t0"] _ _) as H; [by_computation .. | ].
    destruct H as [_ Hone].
    apply Hone. simpl. lia.
Defined.

(** C5, as stated, fails on a blank code: it is not empty, yet the error is
    the one about the code, not the one about the configuration. *)
Lemma getTokenFromCode_blank_code_counterexample :
  " " <> EmptyString
  /\ truthy (configuredRedirectUri empty_world) = false
  /\ getTokenFromCode env (JStr " ") empty_world
     = (Throw (Error "Authorization code is required"), empty_world)
  /\ getTokenFromCode env (JStr " ") empty_world
     <> (Throw (Error "XERO_REDIRECT_URIS not configured"), empty_world).
Proof. repeat split; by_computation. Qed.

Lemma getTokenFromCode_fails_before_any_call_witness :
  getTokenFromCode env (JStr "abc") empty_world
  = (Throw (Error "XERO_REDIRECT_URIS not configured"), empty_world).
Proof.
  destruct (getTokenFromCode_fails_before_any_call env empty_world) as (_ & _ & H & _).
  apply H; by_computation.
Defined.

(** C6, as stated, fails when a fresh token is held in memory: the stale
    cache is never read and the tenant list is fetched. *)
Lemma getTenants_memory_fresh_counterexample :
  redis_get env TOKEN_SET_KEY (ext cached_expired_memory_fresh)
  = (Ok (Some (text_of stale_token_no_refresh)), ext cached_expired_memory_fresh)
  /\ JSON_parse env (text_of stale_token_no_refresh) = Ok stale_token_no_refresh
  /\ expiresAt_of env stale_token_no_refresh
     = Ok (Fin (nowSeconds env cached_expired_memory_fresh - 100))
  /\ get_prop stale_token_no_refresh "refresh_token" = JUndefined
  /\ fst (getTenants env cached_expired_memory_fresh) = Ok (JArr [tenant "t0"])
  /\ tenant_calls (trace (snd (getTenants env cached_expired_memory_fresh))) = 1%nat.
Proof. repeat split; by_computation. Qed.

Lemma getTenants_authentication_required_witness :
  fst (getTenants env cached_expired) = Throw authenticationRequired
  /\ tenant_calls (trace (snd (getTenants env cached_expired))) = 0%nat.
Proof.
  unshelve epose proof
    (getTenants_authentication_required env cached_expired
       (text_of stale_token_no_refresh) (ext cached_expired) stale_token_no_refresh
       (snd (setClientTokenSet env stale_token_no_refresh
               (snd (loadTokenSet env cached_expired)))) 900
       _ _ _ _ _ _ _ _ _) as H; [by_computation .. | ].
  destruct H as [Hrun Hcalls].
  rewrite Hrun. split; [reflexivity|].
  etransitivity; [exact Hcalls | by_computation].
Defined.

Lemma cache_adapter_never_throws_witness :
  (exists w', loadTokenSet env empty_world = (Ok JNull, w'))
  /\ (exists w', loadTokenSet env cached_garbage = (Ok JNull, w')).
Proof.
  split.
  - destruct (cache_adapter_never_throws env JNull empty_world)
      as (_ & _ & _ & _ & Hmiss & _).
    eexists. apply (Hmiss (ext empty_world)). by_computation.
  - destruct (cache_adapter_never_throws env JNull cached_garbage)
      as (_ & _ & _ & _ & _ & Hparse & _).
    apply (Hparse "{oops" (JsError "SyntaxError" "Unexpected token in JSON")
             (ext cached_garbage)); by_computation.
Defined.

Lemma ensureAuthenticated_fresh_is_noop_witness :
  ensureAuthenticated env memory_fresh = (Ok tt, memory_fresh)
  /\ forall n, repeatM n (ensureAuthenticated env) memory_fresh = (Ok tt, memory_fresh).
Proof.
  unshelve epose proof
    (ensureAuthenticated_fresh_is_noop env memory_fresh fresh_token _ _ _) as H;
    [by_computation .. | ].
  exact H.
Defined.

Lemma getTenants_returns_array_witness :
  exists l, fst (getTenants env memory_fresh) = Ok (JArr l).
Proof.
  unshelve epose proof
    (getTenants_returns_array env memory_fresh
       (JArr []) (snd (getTenants env memory_fresh)) _) as H; [by_computation | ].
  destruct H as (_ & _ & _ & Harr).
  assert (Hfield : array_or_unset (client_field (snd (getTenants env memory_fresh)) "tenants"))
    by by_computation.
  destruct (Harr Hfield) as (l & Hl).
  exists l. rewrite <- Hl. by_computation.
Defined.

(** C10, as stated, fails on an [expires_at] that converts to plus
    infinity, be it the number (a cached [1e400]) or the string "Infinity":
    it is not a finite number, yet it is not coerced to 0, and the record is
    reported not expired. *)
Lemma isExpiredOrNearExpiry_infinity_counterexample :
  Number env (get_prop (object [("expires_at", JNum PosInf)]) "expires_at") = Ok PosInf
  /\ expiresAt_of env (object [("expires_at", JNum PosInf)]) = Ok PosInf
  /\ isExpiredOrNearExpiry env (object [("expires_at", JNum PosInf)]) empty_world
     = (Ok false, empty_world)
  /\ Number env (get_prop (object [("expires_at", JStr "Infinity")]) "expires_at")
     = Ok PosInf
  /\ expiresAt_of env (object [("expires_at", JStr "Infinity")]) <> Ok (Fin 0)
  /\ isExpiredOrNearExpiry env (object [("expires_at", JStr "Infinity")]) empty_world
     = (Ok false, empty_world).
Proof. repeat split; by_computation. Qed.

Lemma isExpiredOrNearExpiry_total_witness :
  isExpiredOrNearExpiry env (object [("expires_at", JStr "soon")]) empty_world
  = (Ok true, empty_world)
  /\ isExpiredOrNearExpiry env JUndefined empty_world = (Ok true, empty_world)
  /\ isExpiredOrNearExpiry env (object [("expires_at", JStr "Infinity")]) empty_world
     = (Ok false, empty_world).
Proof.
  split; [|split].
  - destruct (isExpiredOrNearExpiry_total env (object [("expires_at", JStr "soon")])
                empty_world) as (_ & _ & _ & Hnan & _).
    apply Hnan. by_computation.
  - destruct (isExpiredOrNearExpiry_total env JUndefined empty_world) as (_ & Hnull & _).
    apply Hnull. right. reflexivity.
  - destruct (isExpiredOrNearExpiry_total env (object [("expires_at", JStr "Infinity")])
                empty_world) as (_ & _ & _ & _ & _ & Hinf & _).
    apply Hinf. by_computation.
Defined.

End Runs.

(** ** Further properties of the class *)

Section SessionProperties.

Context {X : Type} (env : Env X).

Implicit Types (w : World X) (tokenSet stored : JsVal).
Local Open Scope list_scope.

(** *** Counting calls *)

Lemma filter_length_app {A} (p : A -> bool) (a b : list A) :
  List.length (List.filter p (a ++ b))
  = (List.length (List.filter p a) + List.length (List.filter p b))%nat.
Proof. rewrite List.filter_app, List.length_app. reflexivity. Qed.

Lemma cache_reads_app (a b : list Event) :
  cache_reads (a ++ b) = (cache_reads a + cache_reads b)%nat.
Proof. apply filter_length_app. Qed.

Lemma cache_writes_app (a b : list Event) :
  cache_writes (a ++ b) = (cache_writes a + cache_writes b)%nat.
Proof. apply filter_length_app. Qed.

Lemma refresh_calls_app (a b : list Event) :
  refresh_calls (a ++ b) = (refresh_calls a + refresh_calls b)%nat.
Proof. apply filter_length_app. Qed.

(** The calls of [setClientTokenSet]: at most the call of the setter. *)
Lemma setClientTokenSet_events tokenSet w r w' :
  setClientTokenSet env tokenSet w = (r, w') ->
  exists evs, trace w' = trace w ++ evs
              /\ (evs = [] \/ evs = [CallSetTokenSet tokenSet]).
Proof.
  unfold setClientTokenSet, call_sdk, write_client, ret.
  destruct (truthy tokenSet); simpl.
  - destruct (sdk_setTokenSet env) as [f|].
    + destruct (f tokenSet (client w) (ext w)) as [[r' c'] x'].
      intros H. inversion H; subst. eexists. split; [reflexivity | right; reflexivity].
    + intros H. inversion H; subst. exists []. rewrite app_nil_r. split; [reflexivity | left; reflexivity].
  - intros H. inversion H; subst. exists []. rewrite app_nil_r. split; [reflexivity | left; reflexivity].
Qed.

(** The calls of [saveTokenSet]: at most one write, and the log of its
    failure. *)
Lemma saveTokenSet_events tokenSet w r w' :
  saveTokenSet env tokenSet w = (r, w') ->
  r = Ok tt /\ client w' = client w
  /\ exists evs, trace w' = trace w ++ evs
                 /\ tenant_calls evs = 0%nat /\ cache_reads evs = 0%nat
                 /\ refresh_calls evs = 0%nat /\ (cache_writes evs <= 1)%nat.
Proof.
  unfold saveTokenSet, try_catch, bind, lift, call_redis, console_error, emit.
  destruct (JSON_stringify env _) as [data|e]; simpl.
  - destruct (redis_set env TOKEN_SET_KEY data (ext w)) as [[[]|e] x'] eqn:Hset; simpl;
      intros H; inversion H; subst; simpl; (split; [reflexivity|]); (split; [reflexivity|]).
    + eexists. split; [reflexivity|]. repeat split; count_calls.
    + eexists. split; [rewrite <- app_assoc; reflexivity|]. repeat split; count_calls.
  - intros H. inversion H; subst; simpl. split; [reflexivity|]. split; [reflexivity|].
    eexists. split; [reflexivity|]. repeat split; count_calls.
Qed.

(** The calls of [loadTokenSet]: one read, and the log of its failure. *)
Lemma loadTokenSet_events w r w' :
  loadTokenSet env w = (r, w') ->
  client w' = client w
  /\ exists evs, trace w' = trace w ++ evs
                 /\ tenant_calls evs = 0%nat /\ cache_reads evs = 1%nat
                 /\ refresh_calls evs = 0%nat /\ cache_writes evs = 0%nat.
Proof.
  unfold loadTokenSet, try_catch, bind, lift, call_redis, console_error, emit, ret.
  destruct (redis_get env TOKEN_SET_KEY (ext w)) as [[[[|c raw]|]|e] x'] eqn:Hget; simpl.
  - intros H. inversion H; subst; simpl. split; [reflexivity|].
    eexists. split; [reflexivity|]. repeat split; count_calls.
  - destruct (JSON_parse env (String c raw)) as [v|e]; simpl;
      intros H; inversion H; subst; simpl; (split; [reflexivity|]).
    + eexists. split; [reflexivity|]. repeat split; count_calls.
    + eexists. split; [rewrite <- app_assoc; reflexivity|]. repeat split; count_calls.
  - intros H. inversion H; subst; simpl. split; [reflexivity|].
    eexists. split; [reflexivity|]. repeat split; count_calls.
  - intros H. inversion H; subst; simpl. split; [reflexivity|].
    eexists. split; [rewrite <- app_assoc; reflexivity|]. repeat split; count_calls.
Qed.

(** The calls of the [try] block of [ensureAuthenticated]. *)
Lemma tryRefresh_events stored w r w' :
  tryRefresh env stored w = (r, w') ->
  exists evs, trace w' = trace w ++ evs
              /\ tenant_calls evs = 0%nat /\ cache_reads evs = 0%nat
              /\ (refresh_calls evs <= 1)%nat
              /\ (cache_writes evs <= refresh_calls evs)%nat.
Proof.
  unfold tryRefresh.
  destruct (truthy (get_prop stored "refresh_token")) eqn:Hrt.
  - assert (Hs : get_prop_strict stored "refresh_token"
                 = Ok (get_prop stored "refresh_token")).
    { destruct stored; try reflexivity; discriminate. }
    rewrite Hs. unfold bind at 1, lift. unfold bind at 1, call_sdk.
    destruct (sdk_refreshWithRefreshToken env _ _ _ (client w) (ext w))
      as [[[refreshed|e] c3] x3].
    + destruct (truthy refreshed).
      * unfold bind at 1.
        destruct (setClientTokenSet env refreshed _) as [[[]|e] w4] eqn:Hset;
          apply setClientTokenSet_events in Hset; destruct Hset as (e1 & T1 & S1);
          simpl in T1.
        -- unfold bind, ret.
           destruct (saveTokenSet env refreshed w4) as [r5 w5] eqn:Hsave.
           apply saveTokenSet_events in Hsave.
           destruct Hsave as (-> & _ & e2 & T2 & A2 & B2 & C2 & D2).
           intros H. inversion H; subst. eexists. split.
           ++ rewrite T2, T1, <- !app_assoc. reflexivity.
           ++ destruct S1 as [-> | ->]; repeat split; count_calls.
        -- intros H. inversion H; subst. eexists. split.
           ++ rewrite T1, <- app_assoc. reflexivity.
           ++ destruct S1 as [-> | ->]; repeat split; count_calls.
      * unfold ret. intros H. inversion H; subst. eexists. split; [reflexivity|].
        repeat split; count_calls.
    + intros H. inversion H; subst. eexists. split; [reflexivity|].
      repeat split; count_calls.
  - unfold ret. intros H. inversion H; subst. exists []. rewrite app_nil_r.
    split; [reflexivity|]. repeat split; count_calls.
Qed.

(** The calls of [ensureAuthenticated]. *)
Lemma ensureAuthenticated_events w r w' :
  ensureAuthenticated env w = (r, w') ->
  exists evs, trace w' = trace w ++ evs /\ session_budget evs.
Proof.
  unfold ensureAuthenticated, session_budget.
  rewrite (bind_ok _ _ _ _ _ (currentTokenSetIsFresh_run env w)).
  destruct (_ && _).
  - unfold ret. intros H. inversion H; subst. exists []. rewrite app_nil_r.
    split; [reflexivity|]. repeat split; count_calls.
  - unfold bind at 1.
    destruct (loadTokenSet env w) as [[stored|e] w1] eqn:Hload;
      pose proof (loadTokenSet_events _ _ _ Hload) as (_ & e1 & T1 & A1 & B1 & C1 & D1).
    2:{ intros H. inversion H; subst. exists e1. split; [exact T1|]. repeat split; lia. }
    unfold bind at 1.
    assert (Hinner : exists b w2 e2,
               (if truthy stored
                then bind (setClientTokenSet env stored) (fun _ => isFresh env stored)
                else ret false) w1 = (b, w2)
               /\ trace w2 = trace w1 ++ e2
               /\ tenant_calls e2 = 0%nat /\ cache_reads e2 = 0%nat
               /\ refresh_calls e2 = 0%nat /\ cache_writes e2 = 0%nat).
    { destruct (truthy stored).
      - unfold bind.
        destruct (setClientTokenSet env stored w1) as [[[]|e] w2] eqn:Hset;
          apply setClientTokenSet_events in Hset; destruct Hset as (e2 & T2 & S2).
        + rewrite isFresh_run. do 3 eexists. split; [reflexivity|]. split; [exact T2|].
          destruct S2 as [-> | ->]; repeat split; count_calls.
        + do 3 eexists. split; [reflexivity|]. split; [exact T2|].
          destruct S2 as [-> | ->]; repeat split; count_calls.
      - exists (Ok false), w1, []. rewrite app_nil_r. repeat split; count_calls. }
    destruct Hinner as (b & w2 & e2 & -> & T2 & A2 & B2 & C2 & D2).
    destruct b as [[|]|e].
    + unfold ret. intros H. inversion H; subst. exists (e1 ++ e2).
      rewrite T2, T1, <- app_assoc. split; [reflexivity|]. repeat split; count_calls.
    + unfold bind at 1, try_catch.
      destruct (tryRefresh env stored w2) as [[[|]|e] w3] eqn:Htry;
        apply tryRefresh_events in Htry; destruct Htry as (e3 & T3 & A3 & B3 & C3 & D3).
      * unfold ret. intros H. inversion H; subst. exists (e1 ++ e2 ++ e3).
        rewrite T3, T2, T1, <- !app_assoc. split; [reflexivity|]. repeat split; count_calls.
      * unfold throw. intros H. inversion H; subst. exists (e1 ++ e2 ++ e3).
        rewrite T3, T2, T1, <- !app_assoc. split; [reflexivity|]. repeat split; count_calls.
      * unfold bind, console_error, emit, ret, throw. simpl.
        intros H. inversion H; subst. simpl.
        exists (e1 ++ e2 ++ e3 ++ [ConsoleError "Token refresh failed:" e]).
        rewrite T3, T2, T1, <- !app_assoc. split; [reflexivity|]. repeat split; count_calls.
    + intros H. inversion H; subst. exists (e1 ++ e2).
      rewrite T2, T1, <- app_assoc. split; [reflexivity|]. repeat split; count_calls.
Qed.

(** *** The order of the calls *)

Lemma writes_guarded_true (evs : list Event) : writes_guarded true evs = true.
Proof. induction evs as [|ev evs IH]; [reflexivity|]. destruct ev; simpl; exact IH. Qed.

Lemma writes_guarded_mono b (evs : list Event) :
  writes_guarded false evs = true -> writes_guarded b evs = true.
Proof. destruct b; [intros _; apply writes_guarded_true | tauto]. Qed.

Lemma writes_guarded_app b (a c : list Event) :
  writes_guarded b a = true ->
  writes_guarded false c = true ->
  writes_guarded b (a ++ c) = true.
Proof.
  revert b. induction a as [|ev a IH]; intros b Ha Hc.
  - apply writes_guarded_mono. exact Hc.
  - destruct ev; simpl in *; try (apply IH; assumption).
    apply andb_true_iff in Ha. destruct Ha as [Hb Ha]. subst b. simpl.
    apply IH; assumption.
Qed.

Lemma writes_guarded_without_writes b (evs : list Event) :
  cache_writes evs = 0%nat -> writes_guarded b evs = true.
Proof.
  revert b. induction evs as [|ev evs IH]; intros b H; [reflexivity|].
  destruct ev; simpl in *; try (apply IH; exact H).
  unfold cache_writes in H. simpl in H. discriminate.
Qed.

Lemma writes_guarded_sound (evs : list Event) :
  writes_guarded false evs = true -> writes_follow_refresh evs.
Proof.
  intros Hg pre key data post ->.
  assert (Hgen : forall b,
             writes_guarded b (pre ++ CallRedisSet key data :: post) = true ->
             b = true \/ (1 <= refresh_calls pre)%nat).
  { clear Hg. induction pre as [|ev pre IH]; intros b H.
    - simpl in H. apply andb_true_iff in H. left. tauto.
    - destruct ev; simpl in H;
        try (destruct (IH b H) as [Hb | Hr]; [left; exact Hb | right; exact Hr]).
      + apply andb_true_iff in H. destruct H as [Hb _]. left. exact Hb.
      + right. unfold refresh_calls. simpl. lia. }
  destruct (Hgen false Hg) as [H | H]; [discriminate | exact H].
Qed.

Lemma trace_extension_unique w (evs evs' : list Event) (t : list Event) :
  t = trace w ++ evs -> t = trace w ++ evs' -> evs = evs'.
Proof. intros -> H. apply app_inv_head in H. exact H. Qed.

(** In the [try] block of [ensureAuthenticated] the cache is written only
    after the refresh call. *)
Lemma tryRefresh_order stored w r w' :
  tryRefresh env stored w = (r, w') ->
  exists evs, trace w' = trace w ++ evs /\ writes_guarded false evs = true.
Proof.
  intros Hrun.
  destruct (truthy (get_prop stored "refresh_token")) eqn:Hrt.
  - destruct (tryRefresh_calls env _ _ _ _ Hrt Hrun) as (rest & T & _).
    eexists. split; [exact T|]. simpl. apply writes_guarded_true.
  - rewrite (tryRefresh_without_refresh_token env _ w Hrt) in Hrun.
    inversion Hrun; subst. exists []. rewrite app_nil_r. split; reflexivity.
Qed.

(** In [ensureAuthenticated] the cache is written only after the refresh
    call. *)
Lemma ensureAuthenticated_order w r w' :
  ensureAuthenticated env w = (r, w') ->
  exists evs, trace w' = trace w ++ evs /\ writes_guarded false evs = true.
Proof.
  unfold ensureAuthenticated.
  rewrite (bind_ok _ _ _ _ _ (currentTokenSetIsFresh_run env w)).
  destruct (_ && _).
  - unfold ret. intros H. inversion H; subst. exists []. rewrite app_nil_r.
    split; reflexivity.
  - unfold bind at 1.
    destruct (loadTokenSet env w) as [[stored|e] w1] eqn:Hload;
      pose proof (loadTokenSet_events _ _ _ Hload) as (_ & e1 & T1 & _ & _ & _ & D1).
    2:{ intros H. inversion H; subst. exists e1. split; [exact T1|].
        apply writes_guarded_without_writes. exact D1. }
    pose proof (writes_guarded_without_writes false e1 D1) as G1.
    unfold bind at 1.
    assert (Hinner : exists b w2 e2,
               (if truthy stored
                then bind (setClientTokenSet env stored) (fun _ => isFresh env stored)
                else ret false) w1 = (b, w2)
               /\ trace w2 = trace w1 ++ e2
               /\ writes_guarded false e2 = true).
    { destruct (truthy stored).
      - unfold bind.
        destruct (setClientTokenSet env stored w1) as [[[]|e] w2] eqn:Hset;
          apply setClientTokenSet_events in Hset; destruct Hset as (e2 & T2 & S2).
        + rewrite isFresh_run. do 3 eexists. split; [reflexivity|]. split; [exact T2|].
          destruct S2 as [-> | ->]; reflexivity.
        + do 3 eexists. split; [reflexivity|]. split; [exact T2|].
          destruct S2 as [-> | ->]; reflexivity.
      - exists (Ok false), w1, []. rewrite app_nil_r. repeat split; reflexivity. }
    destruct Hinner as (b & w2 & e2 & -> & T2 & G2).
    pose proof (writes_guarded_app false e1 e2 G1 G2) as G12.
    destruct b as [[|]|e].
    + unfold ret. intros H. inversion H; subst. exists (e1 ++ e2).
      rewrite T2, T1, <- app_assoc. split; [reflexivity | exact G12].
    + unfold bind at 1, try_catch.
      destruct (tryRefresh env stored w2) as [[[|]|e] w3] eqn:Htry;
        apply tryRefresh_order in Htry; destruct Htry as (e3 & T3 & G3);
        pose proof (writes_guarded_app false (e1 ++ e2) e3 G12 G3) as G123.
      * unfold ret. intros H. inversion H; subst. exists ((e1 ++ e2) ++ e3).
        rewrite T3, T2, T1, <- !app_assoc. split; [reflexivity|].
        rewrite <- !app_assoc in G123. exact G123.
      * unfold throw. intros H. inversion H; subst. exists ((e1 ++ e2) ++ e3).
        rewrite T3, T2, T1, <- !app_assoc. split; [reflexivity|].
        rewrite <- !app_assoc in G123. exact G123.
      * unfold bind, console_error, emit, ret, throw. simpl.
        intros H. inversion H; subst. simpl.
        exists (((e1 ++ e2) ++ e3) ++ [ConsoleError "Token refresh failed:" e]).
        rewrite T3, T2, T1, <- !app_assoc. split; [reflexivity|].
        pose proof (writes_guarded_app false ((e1 ++ e2) ++ e3)
                      [ConsoleError "Token refresh failed:" e] G123 eq_refl) as G.
        rewrite <- !app_assoc in G. exact G.
    + intros H. inversion H; subst. exists (e1 ++ e2).
      rewrite T2, T1, <- app_assoc. split; [reflexivity | exact G12].
Qed.

(** In [getTenants] too. *)
Lemma getTenants_order w r w' :
  getTenants env w = (r, w') ->
  exists evs, trace w' = trace w ++ evs /\ writes_guarded false evs = true.
Proof.
  unfold getTenants. unfold bind at 1.
  destruct (ensureAuthenticated env w) as [[[]|e] w1] eqn:Hauth;
    apply ensureAuthenticated_order in Hauth; destruct Hauth as (e1 & T1 & G1).
  2:{ intros H. inversion H; subst. exists e1. split; assumption. }
  unfold try_catch, bind, read_client, call_sdk, ret, throw.
  destruct (negb (truthy (client_field w1 "tenants"))
            || strict_eq_zero (get_length (client_field w1 "tenants"))).
  - destruct (sdk_updateTenants env (client w1) (ext w1)) as [[[[]|e] c'] x'];
      intros H; inversion H; subst; simpl;
      (exists (e1 ++ [CallUpdateTenants]); rewrite T1, <- app_assoc;
       split; [reflexivity|]; apply writes_guarded_app; [exact G1 | reflexivity]).
  - intros H. inversion H; subst. exists e1. split; assumption.
Qed.

(** The calls of [getTenants]: those of [ensureAuthenticated], and at most
    one tenant-list call after them. *)
Lemma getTenants_events w r w' :
  getTenants env w = (r, w') ->
  exists evs, trace w' = trace w ++ evs
              /\ (tenant_calls evs <= 1)%nat /\ (cache_reads evs <= 1)%nat
              /\ (refresh_calls evs <= 1)%nat
              /\ (cache_writes evs <= refresh_calls evs)%nat.
Proof.
  unfold getTenants. unfold bind at 1.
  destruct (ensureAuthenticated env w) as [[[]|e] w1] eqn:Hauth;
    apply ensureAuthenticated_events in Hauth; destruct Hauth as (e1 & T1 & B1).
  2:{ intros H. inversion H; subst. exists e1. split; [exact T1|].
      repeat split; count_calls. }
  unfold try_catch, bind, read_client, call_sdk, ret, throw.
  destruct (negb (truthy (client_field w1 "tenants"))
            || strict_eq_zero (get_length (client_field w1 "tenants"))).
  - destruct (sdk_updateTenants env (client w1) (ext w1)) as [[[[]|e] c'] x'];
      intros H; inversion H; subst; simpl;
      (exists (e1 ++ [CallUpdateTenants]); rewrite T1, <- app_assoc;
       split; [reflexivity|]; repeat split; count_calls).
  - intros H. inversion H; subst. exists e1. split; [exact T1|].
    repeat split; count_calls.
Qed.

(** X1.  One run of the session manager, alone or on behalf of [getTenants] or
    [getActiveTenantId], only adds to the recorded calls, and stays within a
    budget: [ensureAuthenticated] makes no tenant-list call, at most one
    cache read and at most one refresh call; [getTenants] adds at most one
    tenant-list call; [getActiveTenantId], which authenticates twice, makes
    at most one tenant-list call, two cache reads and two refresh calls.  In
    all three, every cache write comes after a refresh call, and there are
    no more writes than refresh calls. *)
Theorem session_call_budget w :
  (forall r w', ensureAuthenticated env w = (r, w') ->
     exists evs, trace w' = trace w ++ evs
                 /\ session_budget evs /\ writes_follow_refresh evs)
  /\ (forall r w', getTenants env w = (r, w') ->
        exists evs, trace w' = trace w ++ evs
                    /\ (tenant_calls evs <= 1)%nat /\ (cache_reads evs <= 1)%nat
                    /\ (refresh_calls evs <= 1)%nat
                    /\ (cache_writes evs <= refresh_calls evs)%nat
                    /\ writes_follow_refresh evs)
  /\ (forall r w', getActiveTenantId env w = (r, w') ->
        exists evs, trace w' = trace w ++ evs
                    /\ (tenant_calls evs <= 1)%nat /\ (cache_reads evs <= 2)%nat
                    /\ (refresh_calls evs <= 2)%nat
                    /\ (cache_writes evs <= refresh_calls evs)%nat
                    /\ writes_follow_refresh evs).
Proof.
  split; [|split].
  - intros r w' Hrun.
    destruct (ensureAuthenticated_events _ _ _ Hrun) as (evs & T & B).
    destruct (ensureAuthenticated_order _ _ _ Hrun) as (evs' & T' & G).
    rewrite (trace_extension_unique w evs' evs _ T' T) in G.
    exists evs. split; [exact T|]. split; [exact B|].
    apply writes_guarded_sound. exact G.
  - intros r w' Hrun.
    destruct (getTenants_events _ _ _ Hrun) as (evs & T & B1 & B2 & B3 & B4).
    destruct (getTenants_order _ _ _ Hrun) as (evs' & T' & G).
    rewrite (trace_extension_unique w evs' evs _ T' T) in G.
    exists evs. split; [exact T|]. repeat split; try assumption.
    apply writes_guarded_sound. exact G.
  - intros r w'. unfold getActiveTenantId. unfold bind at 1.
    destruct (ensureAuthenticated env w) as [[[]|e] w1] eqn:Hauth;
      pose proof (ensureAuthenticated_order _ _ _ Hauth) as (e1' & T1' & G1);
      apply ensureAuthenticated_events in Hauth; destruct Hauth as (e1 & T1 & B1);
      rewrite (trace_extension_unique w e1' e1 _ T1' T1) in G1.
    2:{ intros H. inversion H; subst. exists e1. split; [exact T1|].
        split; [|split; [|split; [|split]]]; try (count_calls; fail).
        apply writes_guarded_sound. exact G1. }
    unfold bind at 1.
    destruct (getTenants env w1) as [[tenants|e] w2] eqn:Hten;
      pose proof (getTenants_order _ _ _ Hten) as (e2' & T2' & G2);
      apply getTenants_events in Hten; destruct Hten as (e2 & T2 & B2);
      rewrite (trace_extension_unique w1 e2' e2 _ T2' T2) in G2;
      pose proof (writes_guarded_app false e1 e2 G1 G2) as G12.
    2:{ intros H. inversion H; subst. exists (e1 ++ e2).
        rewrite T2, T1, <- app_assoc. split; [reflexivity|].
        split; [|split; [|split; [|split]]]; try (count_calls; fail).
        apply writes_guarded_sound. exact G12. }
    cbv zeta. destruct (negb _); unfold throw, ret; intros H; inversion H; subst;
      (exists (e1 ++ e2); rewrite T2, T1, <- app_assoc; split; [reflexivity|];
       split; [|split; [|split; [|split]]]; try (count_calls; fail);
       apply writes_guarded_sound; exact G12).
Qed.

(** X2.  When [ensureAuthenticated] fails, the error is the
    authentication-required one, or it is what the setter of the wrapped
    client threw while the record loaded from the cache was applied (that
    call sits outside the [try] block).  An error of the refresh never
    escapes; and a client without setter leaves the
    authentication-required error as the only failure. *)
Theorem ensureAuthenticated_failure_kinds w e w' :
  ensureAuthenticated env w = (Throw e, w') ->
  (e = authenticationRequired
   \/ exists setTokenSet stored w1,
        sdk_setTokenSet env = Some setTokenSet
        /\ loadTokenSet env w = (Ok stored, w1)
        /\ truthy stored = true
        /\ call_sdk (CallSetTokenSet stored) (setTokenSet stored) w1 = (Throw e, w'))
  /\ (sdk_setTokenSet env = None -> e = authenticationRequired).
Proof.
  intros Hrun.
  assert (Hkinds :
    e = authenticationRequired
    \/ exists setTokenSet stored w1,
         sdk_setTokenSet env = Some setTokenSet
         /\ loadTokenSet env w = (Ok stored, w1)
         /\ truthy stored = true
         /\ call_sdk (CallSetTokenSet stored) (setTokenSet stored) w1 = (Throw e, w')).
  { revert Hrun. unfold ensureAuthenticated.
    rewrite (bind_ok _ _ _ _ _ (currentTokenSetIsFresh_run env w)).
    destruct (_ && _); [discriminate|].
    destruct (loadTokenSet_run env w) as (stored & w1 & Hload & _).
    rewrite (bind_ok _ _ _ _ _ Hload).
    destruct (truthy stored) eqn:Htruthy.
    - destruct (setClientTokenSet env stored w1) as [[[]|e0] w2] eqn:Hset.
      + erewrite (bind_ok (bind (setClientTokenSet env stored) (fun _ => isFresh env stored)));
          [|rewrite (bind_ok _ _ _ _ _ Hset); apply isFresh_run].
        destruct (negb _); [discriminate|].
        unfold bind at 1, try_catch.
        destruct (tryRefresh env stored w2) as [[[|]|e1] w3];
          unfold bind, console_error, emit, ret, throw; simpl;
          intros H; inversion H; subst; left; reflexivity.
      + erewrite (bind_throw (bind (setClientTokenSet env stored) (fun _ => isFresh env stored)));
          [|apply bind_throw; exact Hset].
        intros H. inversion H; subst. right.
        unfold setClientTokenSet in Hset. rewrite Htruthy in Hset. simpl in Hset.
        destruct (sdk_setTokenSet env) as [f|]; [|discriminate].
        exists f, stored, w1. repeat split; assumption.
    - erewrite (bind_ok (ret false)); [|reflexivity].
      unfold bind at 1, try_catch.
      destruct (tryRefresh env stored w1) as [[[|]|e1] w3];
        unfold bind, console_error, emit, ret, throw; simpl;
        intros H; inversion H; subst; left; reflexivity. }
  split; [exact Hkinds|].
  intros Hnone. destruct Hkinds as [He | (f & _ & _ & Hsome & _)]; [exact He | congruence].
Qed.

Lemma tryRefresh_with_refresh_token stored w :
  truthy (get_prop stored "refresh_token") = true ->
  tryRefresh env stored w
  = bind (call_sdk
            (CallRefreshWithRefreshToken (XERO_CLIENT_ID env) (XERO_CLIENT_SECRET env)
               (get_prop stored "refresh_token"))
            (sdk_refreshWithRefreshToken env (XERO_CLIENT_ID env) (XERO_CLIENT_SECRET env)
               (get_prop stored "refresh_token")))
      (fun refreshed =>
         if truthy refreshed
         then bind (setClientTokenSet env refreshed)
                (fun _ => bind (saveTokenSet env refreshed) (fun _ => ret true))
         else ret false) w.
Proof.
  intros Hrt. unfold tryRefresh. rewrite Hrt.
  assert (Hs : get_prop_strict stored "refresh_token"
               = Ok (get_prop stored "refresh_token")).
  { destruct stored; try reflexivity; discriminate. }
  rewrite Hs. reflexivity.
Qed.

(** X3.  A refresh that fails never surfaces as such.  When the record loaded
    from the cache is stale and carries a refresh token: if the refresh call
    throws, the error is logged and [ensureAuthenticated] fails with the
    authentication-required error; if it returns nothing, the same failure
    follows without a log; and if the refreshed record cannot be applied to
    the client, the failure is logged and the refreshed record is not
    written to the cache. *)
Theorem ensureAuthenticated_refresh_failure w raw x1 stored w2 :
  currentTokenSetIsFresh env w = (Ok false, w) ->
  redis_get env TOKEN_SET_KEY (ext w) = (Ok (Some raw), x1) ->
  raw <> EmptyString ->
  JSON_parse env raw = Ok stored ->
  truthy stored = true ->
  setClientTokenSet env stored
    (mkWorld (client w) x1 (trace w ++ [CallRedisGet TOKEN_SET_KEY])) = (Ok tt, w2) ->
  isFresh env stored w2 = (Ok false, w2) ->
  truthy (get_prop stored "refresh_token") = true ->
  let refresh_token := get_prop stored "refresh_token" in
  let refresh_call :=
    CallRefreshWithRefreshToken (XERO_CLIENT_ID env) (XERO_CLIENT_SECRET env) refresh_token in
  let refresh :=
    sdk_refreshWithRefreshToken env (XERO_CLIENT_ID env) (XERO_CLIENT_SECRET env)
      refresh_token (client w2) (ext w2) in
  (forall e' c3 x3,
      refresh = (Throw e', c3, x3) ->
      ensureAuthenticated env w
      = (Throw authenticationRequired,
         mkWorld c3 x3
           (trace w2 ++ [refresh_call; ConsoleError "Token refresh failed:" e'])))
  /\ (forall refreshed c3 x3,
        refresh = (Ok refreshed, c3, x3) ->
        truthy refreshed = false ->
        ensureAuthenticated env w
        = (Throw authenticationRequired, mkWorld c3 x3 (trace w2 ++ [refresh_call])))
  /\ (forall refreshed c3 x3 e' w4,
        refresh = (Ok refreshed, c3, x3) ->
        truthy refreshed = true ->
        setClientTokenSet env refreshed (mkWorld c3 x3 (trace w2 ++ [refresh_call]))
        = (Throw e', w4) ->
        ensureAuthenticated env w
        = (Throw authenticationRequired,
           mkWorld (client w4) (ext w4)
             (trace w4 ++ [ConsoleError "Token refresh failed:" e']))
        /\ cache_writes (trace w4) = cache_writes (trace w)).
Proof.
  intros Hcur Hget Hraw Hparse Htruthy Hset Hstale Hrt refresh_token refresh_call refresh.
  pose proof (ensureAuthenticated_stale_path env _ _ _ _ _
                Hcur Hget Hraw Hparse Htruthy Hset Hstale) as Hpath.
  pose proof (tryRefresh_with_refresh_token stored w2 Hrt) as Htry.
  fold refresh_token in Htry. fold refresh_call in Htry.
  split; [|split].
  - intros e' c3 x3 Hrefresh. rewrite Hpath.
    unfold bind at 1, try_catch. rewrite Htry.
    unfold bind at 1, call_sdk. fold refresh. rewrite Hrefresh.
    unfold bind, console_error, emit, ret, throw. simpl.
    rewrite <- app_assoc. reflexivity.
  - intros refreshed c3 x3 Hrefresh Hfalsy. rewrite Hpath.
    unfold bind at 1, try_catch. rewrite Htry.
    unfold bind at 1, call_sdk. fold refresh. rewrite Hrefresh, Hfalsy. reflexivity.
  - intros refreshed c3 x3 e' w4 Hrefresh Hok Happly. split.
    + rewrite Hpath.
      unfold bind at 1, try_catch. rewrite Htry.
      unfold bind at 1, call_sdk. fold refresh. rewrite Hrefresh, Hok.
      rewrite (bind_throw _ _ _ _ _ Happly).
      unfold bind, console_error, emit, ret, throw. reflexivity.
    + apply setClientTokenSet_events in Happly. destruct Happly as (e4 & T4 & S4).
      apply setClientTokenSet_events in Hset. destruct Hset as (e2 & T2 & S2).
      simpl in T4, T2. rewrite T4, T2. unfold refresh_call.
      destruct S4 as [-> | ->]; destruct S2 as [-> | ->]; count_calls.
Qed.

(** X4.  Without a usable record in the cache there is no refresh, whatever the
    client holds: when no fresh token is held in memory and the cache read
    finds no key, fails, or finds a text that does not parse,
    [ensureAuthenticated] fails with the authentication-required error,
    leaves the client object as it was, and makes neither a refresh call nor
    a cache write. *)
Theorem ensureAuthenticated_without_cached_record w x1 :
  currentTokenSetIsFresh env w = (Ok false, w) ->
  (redis_get env TOKEN_SET_KEY (ext w) = (Ok None, x1)
   \/ (exists e, redis_get env TOKEN_SET_KEY (ext w) = (Throw e, x1))
   \/ (exists raw e, redis_get env TOKEN_SET_KEY (ext w) = (Ok (Some raw), x1)
                     /\ JSON_parse env raw = Throw e)) ->
  exists w',
    ensureAuthenticated env w = (Throw authenticationRequired, w')
    /\ client w' = client w /\ ext w' = x1
    /\ refresh_calls (trace w') = refresh_calls (trace w)
    /\ cache_writes (trace w') = cache_writes (trace w).
Proof.
  intros Hcur Hcause.
  assert (Hload : exists w1, loadTokenSet env w = (Ok JNull, w1)
                             /\ client w1 = client w /\ ext w1 = x1
                             /\ refresh_calls (trace w1) = refresh_calls (trace w)
                             /\ cache_writes (trace w1) = cache_writes (trace w)).
  { unfold loadTokenSet, try_catch, bind, lift, call_redis, console_error, emit, ret.
    destruct Hcause as [Hget | [(e & Hget) | (raw & e & Hget & Hparse)]]; rewrite Hget.
    - eexists. split; [reflexivity|]. simpl. repeat split; count_calls.
    - simpl. eexists. split; [reflexivity|]. simpl. repeat split; count_calls.
    - destruct raw as [|c raw]; simpl.
      + eexists. split; [reflexivity|]. simpl. repeat split; count_calls.
      + rewrite Hparse. simpl. eexists. split; [reflexivity|]. simpl.
        repeat split; count_calls. }
  destruct Hload as (w1 & Hload & Hc & Hx & Hr & Hw).
  exists w1. split; [|repeat split; assumption].
  unfold ensureAuthenticated.
  rewrite (bind_ok _ _ _ _ _ Hcur). cbv beta iota.
  rewrite (bind_ok _ _ _ _ _ Hload). reflexivity.
Qed.

(** X5.  A fresh record in the cache is enough: when no fresh token is held in
    memory and the record loaded from the cache is applied to the client
    without error and is fresh, [ensureAuthenticated] returns, with no
    refresh call and no cache write.  On a client without setter the record
    then sits in [client.tokenSet], and the next call changes nothing. *)
Theorem ensureAuthenticated_loads_fresh_record w raw x1 stored w2 :
  currentTokenSetIsFresh env w = (Ok false, w) ->
  redis_get env TOKEN_SET_KEY (ext w) = (Ok (Some raw), x1) ->
  raw <> EmptyString ->
  JSON_parse env raw = Ok stored ->
  truthy stored = true ->
  setClientTokenSet env stored
    (mkWorld (client w) x1 (trace w ++ [CallRedisGet TOKEN_SET_KEY])) = (Ok tt, w2) ->
  isFresh env stored w2 = (Ok true, w2) ->
  ensureAuthenticated env w = (Ok tt, w2)
  /\ refresh_calls (trace w2) = refresh_calls (trace w)
  /\ cache_writes (trace w2) = cache_writes (trace w)
  /\ (sdk_setTokenSet env = None ->
      client_field w2 "tokenSet" = stored
      /\ ensureAuthenticated env w2 = (Ok tt, w2)).
Proof.
  intros Hcur Hget Hraw Hparse Htruthy Hset Hfresh.
  split; [|split; [|split]].
  - unfold ensureAuthenticated.
    rewrite (bind_ok _ _ _ _ _ Hcur). cbv beta iota.
    rewrite (bind_ok _ _ _ _ _ (loadTokenSet_hit env _ _ _ _ Hget Hraw Hparse)).
    rewrite Htruthy.
    erewrite (bind_ok (bind (setClientTokenSet env stored) (fun _ => isFresh env stored)));
      [|rewrite (bind_ok _ _ _ _ _ Hset); exact Hfresh].
    reflexivity.
  - apply setClientTokenSet_events in Hset. destruct Hset as (e2 & T2 & S2).
    simpl in T2. rewrite T2. destruct S2 as [-> | ->]; count_calls.
  - apply setClientTokenSet_events in Hset. destruct Hset as (e2 & T2 & S2).
    simpl in T2. rewrite T2. destruct S2 as [-> | ->]; count_calls.
  - intros Hnone.
    assert (Hfield : client_field w2 "tokenSet" = stored).
    { unfold setClientTokenSet in Hset. rewrite Htruthy, Hnone in Hset. simpl in Hset.
      unfold write_client in Hset. inversion Hset; subst.
      unfold client_field. simpl. rewrite lookup_insert_eq. reflexivity. }
    split; [exact Hfield|].
    assert (Hcur2 : currentTokenSetIsFresh env w2 = (Ok true, w2)).
    { unfold currentTokenSetIsFresh, bind, read_client. rewrite Hfield, Htruthy.
      exact Hfresh. }
    unfold ensureAuthenticated. rewrite (bind_ok _ _ _ _ _ Hcur2). reflexivity.
Qed.

(** *** The tenant list *)

(** X6.  [getTenants] trusts a non-empty list held by the client and fetches
    otherwise: after a successful authentication, a non-empty [tenants]
    array is returned as it is, without any call; an unset or empty one
    costs exactly one tenant-list call (again on every later call, as long
    as it stays empty), whose failure is reported as
    "Failed to retrieve tenants: ...". *)
Theorem getTenants_cached_or_fetched w w1 :
  ensureAuthenticated env w = (Ok tt, w1) ->
  (forall t l,
      client_field w1 "tenants" = JArr (t :: l) ->
      getTenants env w = (Ok (JArr (t :: l)), w1))
  /\ (truthy (client_field w1 "tenants") = false \/ client_field w1 "tenants" = JArr [] ->
      (forall c' x',
          sdk_updateTenants env (client w1) (ext w1) = (Ok tt, c', x') ->
          exists v,
            getTenants env w = (Ok v, mkWorld c' x' (trace w1 ++ [CallUpdateTenants]))
            /\ v = (if truthy (default JUndefined (c' !! "tenants"))
                    then default JUndefined (c' !! "tenants") else JArr []))
      /\ (forall e c' x',
             sdk_updateTenants env (client w1) (ext w1) = (Throw e, c', x') ->
             getTenants env w
             = (Throw (Error ("Failed to retrieve tenants: " ++ Exn_toString e)),
                mkWorld c' x' (trace w1 ++ [CallUpdateTenants])))).
Proof.
  intros Hauth.
  assert (Hrun : getTenants env w
                 = try_catch
                     (bind (read_client "tenants") (fun tenants =>
                      bind (if negb (truthy tenants) || strict_eq_zero (get_length tenants)
                            then call_sdk CallUpdateTenants (sdk_updateTenants env)
                            else ret tt) (fun _ =>
                      bind (read_client "tenants") (fun tenants' =>
                      ret (if truthy tenants' then tenants' else JArr [])))))
                     (fun error =>
                        throw (Error ("Failed to retrieve tenants: " ++ Exn_toString error)))
                     w1).
  { unfold getTenants. rewrite (bind_ok _ _ _ _ _ Hauth). reflexivity. }
  split.
  - intros t l Hlist. rewrite Hrun.
    unfold try_catch, bind, read_client, ret. rewrite Hlist. simpl.
    rewrite Hlist. reflexivity.
  - intros Hempty.
    assert (Hcond : negb (truthy (client_field w1 "tenants"))
                    || strict_eq_zero (get_length (client_field w1 "tenants")) = true).
    { destruct Hempty as [Hf | Hnil]; [rewrite Hf | rewrite Hnil]; reflexivity. }
    split.
    + intros c' x' Hupdate. eexists. split; [|reflexivity].
      rewrite Hrun. unfold try_catch, bind, read_client, call_sdk, ret.
      rewrite Hcond, Hupdate. reflexivity.
    + intros e c' x' Hupdate.
      rewrite Hrun. unfold try_catch, bind, read_client, call_sdk, ret, throw.
      rewrite Hcond, Hupdate. reflexivity.
Qed.

(** X7.  [getTenants] fails in two ways only: the failure of
    [ensureAuthenticated], passed on as it is, or the failure of the
    tenant-list call, wrapped as "Failed to retrieve tenants: ...". *)
Theorem getTenants_failure_kinds w e w' :
  getTenants env w = (Throw e, w') ->
  ensureAuthenticated env w = (Throw e, w')
  \/ exists w1 e0 c' x',
       ensureAuthenticated env w = (Ok tt, w1)
       /\ sdk_updateTenants env (client w1) (ext w1) = (Throw e0, c', x')
       /\ e = Error ("Failed to retrieve tenants: " ++ Exn_toString e0)
       /\ w' = mkWorld c' x' (trace w1 ++ [CallUpdateTenants]).
Proof.
  unfold getTenants. unfold bind at 1.
  destruct (ensureAuthenticated env w) as [[[]|e1] w1] eqn:Hauth.
  - unfold try_catch, bind, read_client, call_sdk, ret, throw.
    destruct (negb (truthy (client_field w1 "tenants"))
              || strict_eq_zero (get_length (client_field w1 "tenants"))).
    + destruct (sdk_updateTenants env (client w1) (ext w1)) as [[[[]|e0] c'] x'] eqn:Hupdate.
      * discriminate.
      * intros H. inversion H; subst. right. exists w1, e0, c', x'.
        repeat split; try reflexivity; assumption.
    + discriminate.
  - intros H. inversion H; subst. left. reflexivity.
Qed.

(** *** The code exchange *)

Lemma try_catch_throw_wrapped {A} (m : M X A) (wrap : Exn -> Exn) w e0 w' :
  m w = (Throw e0, w') ->
  try_catch m (fun error => throw (wrap error)) w = (Throw (wrap e0), w').
Proof. intros H. unfold try_catch, throw. rewrite H. reflexivity. Qed.

Lemma try_catch_wrapped {A} (m : M X A) (wrap : Exn -> Exn) w e w' :
  try_catch m (fun error => throw (wrap error)) w = (Throw e, w') ->
  exists e0, m w = (Throw e0, w') /\ e = wrap e0.
Proof.
  unfold try_catch, throw. destruct (m w) as [[a|e0] w1]; [discriminate|].
  intros H. inversion H; subst. exists e0. split; reflexivity.
Qed.

(** X8.  [getTokenFromCode] never lets an error of the SDK or of the exchange
    through as it is.  It fails either before doing anything (the state is
    unchanged), with "Authorization code is required",
    "XERO_REDIRECT_URIS not configured" or, for a code that is neither a
    string nor nullish, a [TypeError]; or with
    "Failed to exchange authorization code: " followed by the error that
    its [try] block threw. *)
Theorem getTokenFromCode_failure_kinds code w e w' :
  getTokenFromCode env code w = (Throw e, w') ->
  (w' = w
   /\ (e = Error "Authorization code is required"
       \/ e = Error "XERO_REDIRECT_URIS not configured"
       \/ e = TypeError "code?.trim is not a function"))
  \/ exists e0,
       exchangeCode env code (configuredRedirectUri w) w = (Throw e0, w')
       /\ e = Error ("Failed to exchange authorization code: " ++ Exn_toString e0).
Proof.
  unfold getTokenFromCode. unfold bind at 1, lift.
  destruct (optional_trim code) as [trimmed|e0] eqn:Htrim.
  - destruct (negb (truthy trimmed)).
    + unfold throw. intros H. inversion H; subst. left. split; [reflexivity|].
      left. reflexivity.
    + unfold bind at 1. destruct (negb (truthy (configuredRedirectUri w))).
      * unfold throw. intros H. inversion H; subst. left. split; [reflexivity|].
        right. left. reflexivity.
      * intros H.
        apply (try_catch_wrapped _
                 (fun error =>
                    Error ("Failed to exchange authorization code: "
                           ++ Exn_toString error)%string)) in H.
        destruct H as (e0 & Hbody & ->).
        right. exists e0. split; [exact Hbody | reflexivity].
  - intros H. inversion H; subst. left. split; [reflexivity|]. right. right.
    destruct code; simpl in Htrim; inversion Htrim; reflexivity.
Qed.

(** X9.  A tenant refresh that fails after a successful exchange costs the
    token its place in the cache: the token has been applied to the client,
    the failure is reported as "Failed to exchange authorization code: ...",
    and nothing has been written to the cache. *)
Theorem getTokenFromCode_tenant_failure_not_saved
  w s prefix encoded token c1 x1 w2 e0 c3 x3 :
  trim s <> EmptyString ->
  truthy (configuredRedirectUri w) = true ->
  template env (configuredRedirectUri w) = Ok prefix ->
  encodeURIComponent env s = Ok encoded ->
  sdk_apiCallback env (prefix ++ "?code=" ++ encoded)%string (client w) (ext w)
  = (Ok token, c1, x1) ->
  setClientTokenSet env token
    (mkWorld c1 x1 (trace w ++ [CallApiCallback (prefix ++ "?code=" ++ encoded)%string]))
  = (Ok tt, w2) ->
  sdk_updateTenants env (client w2) (ext w2) = (Throw e0, c3, x3) ->
  getTokenFromCode env (JStr s) w
  = (Throw (Error ("Failed to exchange authorization code: " ++ Exn_toString e0)),
     mkWorld c3 x3 (trace w2 ++ [CallUpdateTenants]))
  /\ cache_writes (trace w2 ++ [CallUpdateTenants]) = cache_writes (trace w).
Proof.
  intros Hs Huri Hprefix Henc Hcb Hset Hten.
  split.
  - assert (Ht : truthy (JStr (trim s)) = true).
    { simpl. destruct (trim s); [congruence | reflexivity]. }
    unfold getTokenFromCode. unfold bind at 1, lift, optional_trim. rewrite Ht.
    cbn [negb]. unfold bind at 1. rewrite Huri. cbn [negb].
    apply (try_catch_throw_wrapped _
             (fun error =>
                Error ("Failed to exchange authorization code: " ++ Exn_toString error)%string)).
    unfold bind at 1, lift. rewrite Hprefix.
    unfold bind at 1. rewrite Henc.
    unfold bind at 1, call_sdk. rewrite Hcb.
    rewrite (bind_ok _ _ _ _ _ Hset).
    unfold bind at 1. rewrite Hten. reflexivity.
  - apply setClientTokenSet_events in Hset. destruct Hset as (e2 & T2 & S2).
    simpl in T2. rewrite T2. destruct S2 as [-> | ->]; count_calls.
Qed.

(** *** Round trip through the cache *)

(** X10.  What [saveTokenSet] writes, [loadTokenSet] reads back: on a store that
    takes the write and returns the text on the next read, for a token set
    that [JSON.parse] recovers from its [JSON.stringify] text, saving and
    then loading yields the token set, by one write and one read under the
    same key. *)
Theorem save_then_load_round_trip tokenSet w data x1 x2 :
  truthy tokenSet = true ->
  JSON_stringify env tokenSet = Ok data ->
  data <> EmptyString ->
  JSON_parse env data = Ok tokenSet ->
  redis_set env TOKEN_SET_KEY data (ext w) = (Ok tt, x1) ->
  redis_get env TOKEN_SET_KEY x1 = (Ok (Some data), x2) ->
  bind (saveTokenSet env tokenSet) (fun _ => loadTokenSet env) w
  = (Ok tokenSet,
     mkWorld (client w) x2
       (trace w ++ [CallRedisSet TOKEN_SET_KEY data; CallRedisGet TOKEN_SET_KEY])).
Proof.
  intros Htruthy Hstr Hdata Hparse Hset Hget.
  assert (Hsave : saveTokenSet env tokenSet w
                  = (Ok tt, mkWorld (client w) x1
                              (trace w ++ [CallRedisSet TOKEN_SET_KEY data]))).
  { unfold saveTokenSet, try_catch, bind, lift, call_redis.
    rewrite Htruthy, Hstr, Hset. reflexivity. }
  rewrite (bind_ok _ _ _ _ _ Hsave).
  erewrite loadTokenSet_hit; [|exact Hget|exact Hdata|exact Hparse].
  simpl. rewrite <- app_assoc. reflexivity.
Qed.

(** *** Freshness and time *)

(** X11.  Freshness only decays: a record that is fresh at some time was fresh at
    every earlier time, and a record that is expired stays expired. *)
Theorem isFresh_decays tokenSet w1 w2 :
  nowSeconds env w1 <= nowSeconds env w2 ->
  (isFresh env tokenSet w2 = (Ok true, w2) -> isFresh env tokenSet w1 = (Ok true, w1))
  /\ (isExpiredOrNearExpiry env tokenSet w1 = (Ok true, w1) ->
      isExpiredOrNearExpiry env tokenSet w2 = (Ok true, w2)).
Proof.
  intros Hle.
  assert (Hmono : expired_verdict (nowSeconds env w1) (expiresAt_of env tokenSet) = true ->
                  expired_verdict (nowSeconds env w2) (expiresAt_of env tokenSet) = true).
  { destruct (expiresAt_of env tokenSet) as [[|e| |]|]; try (intros; reflexivity);
      [|simpl; discriminate].
    rewrite !expired_verdict_Fin. intros H.
    apply orb_true_iff in H. apply orb_true_iff.
    destruct H as [H | H]; [left; exact H | right].
    apply Z.ltb_lt in H. apply Z.ltb_lt. lia. }
  split.
  - rewrite (isFresh_run env tokenSet w1), (isFresh_run env tokenSet w2).
    destruct (expired_verdict (nowSeconds env w1) (expiresAt_of env tokenSet)) eqn:Hv.
    + rewrite (Hmono eq_refl). discriminate.
    + reflexivity.
  - rewrite (isExpiredOrNearExpiry_run env tokenSet w1),
      (isExpiredOrNearExpiry_run env tokenSet w2).
    destruct (expired_verdict (nowSeconds env w1) (expiresAt_of env tokenSet)) eqn:Hv.
    + rewrite (Hmono eq_refl). reflexivity.
    + discriminate.
Qed.

End SessionProperties.

(** ** Properties of the constructor *)

Section ConstructorProperties.

Context {X : Type} (env : Env X).

Local Open Scope list_scope.

(** *** [trim] *)

Lemma trimStart_head s :
  trimStart s = EmptyString
  \/ exists c t, trimStart s = String c t /\ is_white_space c = false.
Proof.
  induction s as [|c s IH]; simpl.
  - left. reflexivity.
  - destruct (is_white_space c) eqn:Hc.
    + exact IH.
    + right. exists c, s. split; [reflexivity | exact Hc].
Qed.

Lemma trimEnd_keeps_head c s :
  is_white_space c = false -> exists t, trimEnd (String c s) = String c t.
Proof.
  intros Hc. simpl. destruct (trimEnd s).
  - rewrite Hc. eexists. reflexivity.
  - eexists. reflexivity.
Qed.

Lemma trimEnd_idempotent s : trimEnd (trimEnd s) = trimEnd s.
Proof.
  induction s as [|c s IH]; simpl.
  - reflexivity.
  - destruct (trimEnd s) as [|d t] eqn:Ht.
    + destruct (is_white_space c) eqn:Hc; simpl.
      * reflexivity.
      * rewrite Hc. reflexivity.
    + change (trimEnd (String c (String d t))) with
        (match trimEnd (String d t) with
         | EmptyString =>
             if is_white_space c then EmptyString else String c EmptyString
         | u => String c u
         end).
      rewrite IH. reflexivity.
Qed.

Lemma trim_idempotent s : trim (trim s) = trim s.
Proof.
  unfold trim.
  destruct (trimStart_head s) as [-> | (c & t & -> & Hc)].
  - reflexivity.
  - destruct (trimEnd_keeps_head c t Hc) as (u & Hu).
    rewrite Hu. simpl trimStart. rewrite Hc. rewrite <- Hu.
    apply trimEnd_idempotent.
Qed.

Lemma trimStart_suffix c s :
  In c (list_ascii_of_string (trimStart s)) -> In c (list_ascii_of_string s).
Proof.
  induction s as [|d s IH]; simpl; [tauto|].
  destruct (is_white_space d); simpl; [|tauto].
  intros H. right. apply IH. exact H.
Qed.

Lemma trimEnd_prefix c s :
  In c (list_ascii_of_string (trimEnd s)) -> In c (list_ascii_of_string s).
Proof.
  induction s as [|d s IH]; simpl; [tauto|].
  destruct (trimEnd s) as [|e t].
  - destruct (is_white_space d); simpl; tauto.
  - simpl in *. intros [H | H]; [left; exact H | right; apply IH; exact H].
Qed.

Lemma trim_substring c s :
  In c (list_ascii_of_string (trim s)) -> In c (list_ascii_of_string s).
Proof. intros H. apply trimStart_suffix, trimEnd_prefix. exact H. Qed.

(** *** [split] *)

Lemma split_on_nonempty sep s : split_on sep s <> [].
Proof.
  destruct s as [|c s]; simpl; [discriminate|].
  destruct (Ascii.eqb c sep); [discriminate|].
  destruct (split_on sep s); discriminate.
Qed.

Lemma split_on_pieces_without_separator sep s piece :
  In piece (split_on sep s) -> ~ In sep (list_ascii_of_string piece).
Proof.
  revert piece. induction s as [|c s IH]; simpl; intros piece.
  - intros [<- | []]. simpl. tauto.
  - destruct (Ascii.eqb c sep) eqn:Hc.
    + intros [<- | H]; [simpl; tauto | apply IH; exact H].
    + apply Ascii.eqb_neq in Hc.
      destruct (split_on sep s) as [|p ps] eqn:Hsplit.
      * intros [<- | []]. simpl. intros [H | []]. congruence.
      * intros [<- | H].
        -- simpl. intros [H | H]; [congruence|].
           apply (IH p); [left; reflexivity | exact H].
        -- apply IH. right. exact H.
Qed.

Lemma split_trim_filter_entry sep s u :
  In u (split_trim_filter sep s) ->
  u <> EmptyString /\ trim u = u /\ ~ In sep (list_ascii_of_string u).
Proof.
  unfold split_trim_filter. intros H.
  apply List.filter_In in H. destruct H as [H Hne].
  apply List.in_map_iff in H. destruct H as (piece & <- & Hpiece).
  split; [|split].
  - intros Heq. rewrite Heq in Hne. discriminate.
  - apply trim_idempotent.
  - intros Hsep. apply trim_substring in Hsep.
    exact (split_on_pieces_without_separator _ _ _ Hpiece Hsep).
Qed.

Lemma constructor_entry_nonempty (penv : ProcessEnv) u :
  In u (redirectUris penv) -> u <> EmptyString /\ trim u = u.
Proof.
  intros H. apply split_trim_filter_entry in H. destruct H as (H1 & H2 & _).
  split; assumption.
Qed.

(** X12.  The lists the constructor configures are clean: every redirect URI and
    every scope is non-empty and has no white space around it, no redirect
    URI contains a comma and no scope a space; and an unset or empty
    [XERO_REDIRECT_URIS] gives no redirect URI at all. *)
Theorem constructor_lists_clean (penv : ProcessEnv) :
  (forall u, In u (redirectUris penv) ->
     u <> EmptyString /\ trim u = u /\ ~ In ","%char (list_ascii_of_string u))
  /\ (forall v, In v (scopes penv) ->
        v <> EmptyString /\ trim v = v /\ ~ In " "%char (list_ascii_of_string v))
  /\ (XERO_REDIRECT_URIS penv = None \/ XERO_REDIRECT_URIS penv = Some EmptyString ->
      redirectUris penv = []).
Proof.
  split; [|split].
  - intros u. apply split_trim_filter_entry.
  - intros v. apply split_trim_filter_entry.
  - unfold redirectUris. intros [-> | ->]; reflexivity.
Qed.

(** *** The configuration and [getTokenFromCode] *)

Lemma clientConfig_redirectUris (penv : ProcessEnv) :
  get_prop (clientConfig env penv) "redirectUris"
  = JArr (List.map JStr (redirectUris penv)).
Proof.
  unfold clientConfig, get_prop. cbn [list_to_map foldr].
  rewrite lookup_insert_ne by discriminate.
  rewrite lookup_insert_ne by discriminate.
  rewrite lookup_insert_eq. reflexivity.
Qed.

Lemma configuredRedirectUri_of_clientConfig (w : World X) (penv : ProcessEnv) :
  client_field w "config" = clientConfig env penv ->
  configuredRedirectUri w
  = match redirectUris penv with
    | [] => JUndefined
    | u :: _ => JStr u
    end.
Proof.
  intros Hconfig. unfold configuredRedirectUri.
  rewrite Hconfig, clientConfig_redirectUris.
  destruct (redirectUris penv); reflexivity.
Qed.

(** X13.  The "not configured" failure of [getTokenFromCode] is about the
    environment: on a client that holds the configuration the constructor
    built, the redirect URI used is the first entry of
    [XERO_REDIRECT_URIS], and for a code that is not blank the call fails
    with "XERO_REDIRECT_URIS not configured" exactly when the variable has
    no entry. *)
Theorem getTokenFromCode_not_configured_iff (w : World X) (penv : ProcessEnv) :
  client_field w "config" = clientConfig env penv ->
  configuredRedirectUri w
  = match redirectUris penv with
    | [] => JUndefined
    | u :: _ => JStr u
    end
  /\ forall s w',
       trim s <> EmptyString ->
       (getTokenFromCode env (JStr s) w
        = (Throw (Error "XERO_REDIRECT_URIS not configured"), w')
        <-> redirectUris penv = [] /\ w' = w).
Proof.
  intros Hconfig.
  pose proof (configuredRedirectUri_of_clientConfig w penv Hconfig) as Huri.
  split; [exact Huri|].
  intros s w' Hs.
  assert (Ht : truthy (JStr (trim s)) = true).
  { simpl. destruct (trim s); [congruence | reflexivity]. }
  unfold getTokenFromCode. unfold bind at 1, lift, optional_trim. rewrite Ht.
  cbn [negb]. unfold bind at 1. rewrite Huri.
  destruct (redirectUris penv) as [|u us] eqn:Hlist.
  - simpl. unfold throw. split.
    + intros H. inversion H. split; reflexivity.
    + intros [_ ->]. reflexivity.
  - assert (Hu : u <> EmptyString).
    { destruct (constructor_entry_nonempty penv u) as [Hne _]; [|exact Hne].
      rewrite Hlist. left. reflexivity. }
    assert (Htr : truthy (JStr u) = true).
    { simpl. destruct u; [congruence | reflexivity]. }
    rewrite Htr. cbn [negb]. split.
    + intros H.
      apply (try_catch_wrapped _
               (fun error =>
                  Error ("Failed to exchange authorization code: "
                         ++ Exn_toString error)%string)) in H.
      destruct H as (e0 & _ & He). simpl in He. discriminate.
    + intros [H _]. discriminate.
Qed.

(** *** Numeric settings *)

(** X14.  A timeout or clock tolerance of zero cannot be configured: both
    settings are always a number other than 0 and [NaN]; an unset variable,
    one that does not convert to a number, and one that converts to 0 all
    give the default (30000 ms, 5 s), and any other number is taken as it
    is. *)
Theorem constructor_numbers_default (penv : ProcessEnv) :
  (httpTimeout env penv <> NaN /\ httpTimeout env penv <> Fin 0)
  /\ (clockTolerance env penv <> NaN /\ clockTolerance env penv <> Fin 0)
  /\ (Number_of_env env (XERO_HTTP_TIMEOUT penv) = NaN
      \/ Number_of_env env (XERO_HTTP_TIMEOUT penv) = Fin 0 ->
      httpTimeout env penv = Fin 30000)
  /\ (Number_of_env env (XERO_CLOCK_TOLERANCE penv) = NaN
      \/ Number_of_env env (XERO_CLOCK_TOLERANCE penv) = Fin 0 ->
      clockTolerance env penv = Fin 5)
  /\ (forall n, n <> NaN -> n <> Fin 0 ->
        (Number_of_env env (XERO_HTTP_TIMEOUT penv) = n ->
         httpTimeout env penv = n)
        /\ (Number_of_env env (XERO_CLOCK_TOLERANCE penv) = n ->
            clockTolerance env penv = n))
  /\ (XERO_HTTP_TIMEOUT penv = None -> httpTimeout env penv = Fin 30000)
  /\ (XERO_CLOCK_TOLERANCE penv = None -> clockTolerance env penv = Fin 5).
Proof.
  assert (Hor : forall n d, d <> NaN -> d <> Fin 0 ->
                  num_or n d <> NaN /\ num_or n d <> Fin 0).
  { intros n d Hd1 Hd2. unfold num_or. destruct n as [|z| |]; simpl.
    - split; assumption.
    - destruct (z =? 0) eqn:Hz; simpl.
      + split; assumption.
      + apply Z.eqb_neq in Hz. split; [discriminate | congruence].
    - split; discriminate.
    - split; discriminate. }
  assert (Hkeep : forall n d, n <> NaN -> n <> Fin 0 -> num_or n d = n).
  { intros n d Hn1 Hn2. unfold num_or. destruct n as [|z| |]; simpl;
      try reflexivity; try congruence.
    destruct (z =? 0) eqn:Hz; simpl; [|reflexivity].
    apply Z.eqb_eq in Hz. congruence. }
  unfold httpTimeout, clockTolerance.
  split; [|split; [|split; [|split; [|split; [|split]]]]].
  - apply Hor; discriminate.
  - apply Hor; discriminate.
  - intros [-> | ->]; reflexivity.
  - intros [-> | ->]; reflexivity.
  - intros n Hn1 Hn2. split; intros ->; apply Hkeep; assumption.
  - intros ->. reflexivity.
  - intros ->. reflexivity.
Qed.

End ConstructorProperties.

(** ** Properties of [getAuthorizationUrl] and of the example controller *)

Section ControllerProperties.

Context {X : Type} (env : Env X).
Context (buildConsentUrl : SdkSyncMethod X).
Context (res_send : ResCall -> X -> Result unit * X).

Local Open Scope list_scope.

Lemma getAuthorizationUrl_run (w : World X) :
  getAuthorizationUrl buildConsentUrl w
  = match buildConsentUrl (client w) (ext w) with
    | (Throw e, c, x) =>
        (Throw (Error ("Failed to generate authorization URL: " ++ Exn_toString e)),
         mkWorld c x (trace w))
    | (Ok (Plain v), c, x) => (Ok v, mkWorld c x (trace w))
    | (Ok (Promise settled), c, x) => (settled, mkWorld c x (trace w))
    end.
Proof.
  unfold getAuthorizationUrl, bind, try_catch, call_sync, settle, throw, ret, lift.
  destruct (buildConsentUrl (client w) (ext w)) as [[[[v|settled]|e] c] x]; reflexivity.
Qed.

(** X15.  [getAuthorizationUrl] wraps what the URL builder throws, not what it
    rejects: a failure is either "Failed to generate authorization URL: ..."
    around an error the builder threw when called, or the rejection of the
    promise the builder returned, passed on unchanged.  The session is not
    involved: nothing is added to the recorded calls. *)
Theorem getAuthorizationUrl_failure_kinds (w : World X) e w' :
  getAuthorizationUrl buildConsentUrl w = (Throw e, w') ->
  trace w' = trace w
  /\ ((exists e0 c x,
          buildConsentUrl (client w) (ext w) = (Throw e0, c, x)
          /\ e = Error ("Failed to generate authorization URL: " ++ Exn_toString e0))
      \/ (exists c x,
            buildConsentUrl (client w) (ext w) = (Ok (Promise (Throw e)), c, x))).
Proof.
  rewrite getAuthorizationUrl_run.
  destruct (buildConsentUrl (client w) (ext w)) as [[[[v|[v|e1]]|e0] c] x];
    intros H; inversion H; subst; (split; [reflexivity|]).
  - right. exists c, x. reflexivity.
  - left. exists e0, c, x. split; reflexivity.
Qed.

(** X16.  [connect] hides every failure behind one message: it either sends
    exactly one redirect, to the URL the helper returned, and returns, or
    throws the [HttpException] "Failed to generate authorization URL" with
    status 500, whether the builder threw, its promise was rejected, or the
    redirect itself failed. *)
Theorem connect_outcome (s : Conn X) o s' :
  connect buildConsentUrl res_send s = (o, s') ->
  trace (conn_world s') = trace (conn_world s)
  /\ ((o = Returns tt
       /\ exists url w1,
            getAuthorizationUrl buildConsentUrl (conn_world s) = (Ok url, w1)
            /\ sent s' = sent s ++ [ResRedirect url])
      \/ (o = Throws (HttpException "Failed to generate authorization URL"
                        INTERNAL_SERVER_ERROR)
          /\ ((exists e w1,
                  getAuthorizationUrl buildConsentUrl (conn_world s) = (Throw e, w1)
                  /\ sent s' = sent s)
              \/ exists url, sent s' = sent s ++ [ResRedirect url]))).
Proof.
  unfold connect, htry_catch, hbind, helper, res_call, hthrow.
  pose proof (getAuthorizationUrl_run (conn_world s)) as Hrun.
  destruct (getAuthorizationUrl buildConsentUrl (conn_world s)) as [[url|e] w1] eqn:Hget.
  - assert (Htrace : trace w1 = trace (conn_world s)).
    { destruct (buildConsentUrl (client (conn_world s)) (ext (conn_world s)))
        as [[[[v|[v|e1]]|e0] c] x]; inversion Hrun; reflexivity. }
    simpl. destruct (res_send (ResRedirect url) (ext w1)) as [[[]|e] x']; simpl;
      intros H; inversion H; subst; simpl; (split; [exact Htrace|]).
    + left. split; [reflexivity|]. exists url, w1. split; reflexivity.
    + right. split; [reflexivity|]. right. exists url. reflexivity.
  - assert (Htrace : trace w1 = trace (conn_world s)).
    { destruct (buildConsentUrl (client (conn_world s)) (ext (conn_world s)))
        as [[[[v|[v|e1]]|e0] c] x]; inversion Hrun; reflexivity. }
    simpl. intros H. inversion H; subst. simpl. split; [exact Htrace|].
    right. split; [reflexivity|]. left. exists e, w1. split; reflexivity.
Qed.

(** X17.  [callback] rejects a request before the helper is asked anything: a
    request with an [error] parameter is answered by the [HttpException]
    "OAuth error: ..." with status 400, and one without code by
    "Authorization code not provided" with status 400; the state is
    unchanged.  A blank code passes this check and is only rejected by the
    helper, which turns it into status 500. *)
Theorem callback_rejections (code error : JsVal) (s : Conn X) :
  (forall text,
      truthy error = true ->
      template env error = Ok text ->
      callback env res_send code error s
      = (Throws (HttpException ("OAuth error: " ++ text) BAD_REQUEST), s))
  /\ (truthy error = false ->
      truthy code = false ->
      callback env res_send code error s
      = (Throws (HttpException "Authorization code not provided" BAD_REQUEST), s))
  /\ (forall c,
         truthy error = false ->
         code = JStr c ->
         c <> EmptyString ->
         trim c = EmptyString ->
         callback env res_send code error s
         = (Throws (HttpException "OAuth callback failed: Authorization code is required"
                      INTERNAL_SERVER_ERROR), s)).
Proof.
  split; [|split].
  - intros text Herr Htext. unfold callback. rewrite Herr.
    unfold hbind, raw, hthrow. rewrite Htext. reflexivity.
  - intros Herr Hcode. unfold callback. rewrite Herr, Hcode. reflexivity.
  - intros c Herr -> Hc Hblank. unfold callback. rewrite Herr.
    assert (Htruthy : truthy (JStr c) = true).
    { destruct c; [congruence | reflexivity]. }
    rewrite Htruthy. cbn [negb].
    unfold htry_catch, hbind, helper.
    assert (Hhelper : getTokenFromCode env (JStr c) (conn_world s)
                      = (Throw (Error "Authorization code is required"), conn_world s)).
    { unfold getTokenFromCode, bind, lift, optional_trim. rewrite Hblank. reflexivity. }
    rewrite Hhelper. unfold hthrow. destruct s. reflexivity.
Qed.

Lemma callbackReply_tokenSet (expires_at : JsVal) :
  get_prop (callbackReply expires_at) "tokenSet"
  = JObj (list_to_map [("access_token", JStr "***"); ("expires_at", expires_at)]).
Proof.
  unfold callbackReply, get_prop. cbn [list_to_map foldr].
  rewrite lookup_insert_ne by discriminate.
  rewrite lookup_insert_ne by discriminate.
  rewrite lookup_insert_eq. reflexivity.
Qed.

Lemma masked_tokenSet_fields (expires_at : JsVal) :
  let tokenSet :=
    JObj (list_to_map [("access_token", JStr "***"); ("expires_at", expires_at)]) in
  get_prop tokenSet "access_token" = JStr "***"
  /\ get_prop tokenSet "refresh_token" = JUndefined
  /\ get_prop tokenSet "expires_at" = expires_at.
Proof.
  unfold get_prop. cbn [list_to_map foldr]. split; [|split].
  - rewrite lookup_insert_eq. reflexivity.
  - rewrite lookup_insert_ne by discriminate.
    rewrite lookup_insert_ne by discriminate.
    rewrite lookup_empty. reflexivity.
  - rewrite lookup_insert_ne by discriminate.
    rewrite lookup_insert_eq. reflexivity.
Qed.

(** X18.  Once past its two checks, [callback] ends in one of two ways.
    Either the helper returned a token set and [callback] has sent exactly
    one JSON reply, which carries the [expires_at] of that token set, a
    masked access token and no refresh token.  Or it throws an
    [HttpException] with status 500 whose text is "OAuth callback failed: "
    followed by the message of the error that the helper, the reading of
    [expires_at] or the reply threw. *)
Theorem callback_outcome (code error : JsVal) (s : Conn X) o s' :
  truthy error = false ->
  truthy code = true ->
  callback env res_send code error s = (o, s') ->
  (o = Returns tt
   /\ exists tokenSet w1,
        getTokenFromCode env code (conn_world s) = (Ok tokenSet, w1)
        /\ sent s' = sent s ++ [ResJson (callbackReply (get_prop tokenSet "expires_at"))]
        /\ get_prop (get_prop (callbackReply (get_prop tokenSet "expires_at")) "tokenSet")
             "access_token" = JStr "***"
        /\ get_prop (get_prop (callbackReply (get_prop tokenSet "expires_at")) "tokenSet")
             "refresh_token" = JUndefined
        /\ get_prop (get_prop (callbackReply (get_prop tokenSet "expires_at")) "tokenSet")
             "expires_at" = get_prop tokenSet "expires_at")
  \/ exists name message,
       o = Throws (HttpException ("OAuth callback failed: " ++ message)
                     INTERNAL_SERVER_ERROR)
       /\ ((exists w1,
               getTokenFromCode env code (conn_world s) = (Throw (JsError name message), w1)
               /\ sent s' = sent s)
           \/ (exists tokenSet w1,
                  getTokenFromCode env code (conn_world s) = (Ok tokenSet, w1)
                  /\ get_prop_strict tokenSet "expires_at" = Throw (JsError name message)
                  /\ sent s' = sent s)
           \/ (exists tokenSet w1 x',
                  getTokenFromCode env code (conn_world s) = (Ok tokenSet, w1)
                  /\ res_send (ResJson (callbackReply (get_prop tokenSet "expires_at")))
                       (ext w1) = (Throw (JsError name message), x')
                  /\ sent s'
                     = sent s ++ [ResJson (callbackReply (get_prop tokenSet "expires_at"))])).
Proof.
  intros Herr Hcode. unfold callback. rewrite Herr, Hcode. cbn [negb].
  unfold htry_catch, hbind, helper, raw, res_call, hthrow.
  destruct (getTokenFromCode env code (conn_world s)) as [[tokenSet|[name message]] w1].
  - destruct (get_prop_strict tokenSet "expires_at") as [expires_at|[name message]] eqn:Hget.
    + assert (Hexp : expires_at = get_prop tokenSet "expires_at").
      { destruct tokenSet; simpl in Hget; inversion Hget; reflexivity. }
      subst expires_at. cbn [conn_world sent].
      destruct (res_send _ (ext w1)) as [[[]|[name message]] x'] eqn:Hsend;
        intros H; inversion H; subst; cbn [conn_world sent].
      * left. split; [reflexivity|]. exists tokenSet, w1.
        split; [reflexivity|]. split; [reflexivity|].
        rewrite callbackReply_tokenSet. apply masked_tokenSet_fields.
      * right. exists name, message. split; [reflexivity|]. right. right.
        exists tokenSet, w1, x'. repeat split; try reflexivity. exact Hsend.
    + intros H. inversion H; subst. right. exists name, message.
      split; [reflexivity|]. right. left. exists tokenSet, w1.
      repeat split; try reflexivity. exact Hget.
  - intros H. inversion H; subst. right. exists name, message.
    split; [reflexivity|]. left. exists w1. split; reflexivity.
Qed.

(** X19.  [getStatus] never throws and never sends: it returns a status, which is
    "not connected, 0 organizations" whenever the helper fails (also when
    authentication is required), and the size of the tenant list otherwise,
    connected meaning that the list is not empty. *)
Theorem getStatus_total (s : Conn X) :
  exists v s',
    getStatus env s = (Returns v, s')
    /\ sent s' = sent s
    /\ (forall e w1,
           getTenants env (conn_world s) = (Throw e, w1) ->
           v = statusReply false (JNum (Fin 0)))
    /\ (forall l w1,
           getTenants env (conn_world s) = (Ok (JArr l), w1) ->
           v = statusReply (negb (Nat.eqb (List.length l) 0))
                 (JNum (Fin (Z.of_nat (List.length l))))).
Proof.
  unfold getStatus, htry_catch, hbind, helper, raw, hret.
  destruct (getTenants env (conn_world s)) as [[tenants|e] w1].
  - destruct (get_length_strict tenants) as [len|e] eqn:Hlen.
    + destruct (Number env len) as [n|e] eqn:Hn.
      * do 2 eexists. split; [reflexivity|]. split; [reflexivity|]. split.
        -- intros e w2 H. discriminate.
        -- intros l w2 H. inversion H; subst. simpl in Hlen. inversion Hlen; subst.
           simpl in Hn. inversion Hn; subst. f_equal. simpl.
           destruct l; reflexivity.
      * do 2 eexists. split; [reflexivity|]. split; [reflexivity|]. split.
        -- intros e0 w2 H. discriminate.
        -- intros l w2 H. inversion H; subst. simpl in Hlen. inversion Hlen; subst.
           simpl in Hn. discriminate.
    + do 2 eexists. split; [reflexivity|]. split; [reflexivity|]. split.
      * intros e0 w2 H. discriminate.
      * intros l w2 H. inversion H; subst. simpl in Hlen. discriminate.
  - do 2 eexists. split; [reflexivity|]. split; [reflexivity|]. split.
    + intros e0 w2 H. reflexivity.
    + intros l w2 H. discriminate.
Qed.

(** X20.  An unauthenticated helper seen from the controller: when
    [ensureAuthenticated] fails with the authentication-required error,
    [getOrganizations] throws the [HttpException]
    "Failed to get organizations: Xero authentication required. Please connect via OAuth flow."
    with status 500, [getStatus] reports "not connected", and neither makes
    a tenant-list call. *)
Theorem controller_when_authentication_required (s : Conn X) w1 :
  ensureAuthenticated env (conn_world s) = (Throw authenticationRequired, w1) ->
  getOrganizations env s
  = (Throws (HttpException
               "Failed to get organizations: Xero authentication required. Please connect via OAuth flow."
               INTERNAL_SERVER_ERROR),
     mkConn w1 (sent s))
  /\ getStatus env s = (Returns (statusReply false (JNum (Fin 0))), mkConn w1 (sent s))
  /\ tenant_calls (trace w1) = tenant_calls (trace (conn_world s)).
Proof.
  intros Hauth.
  assert (Hten : getTenants env (conn_world s) = (Throw authenticationRequired, w1)).
  { unfold getTenants. apply bind_throw. exact Hauth. }
  split; [|split].
  - unfold getOrganizations, htry_catch, helper, hthrow. rewrite Hten. reflexivity.
  - unfold getStatus, htry_catch, hbind, helper, hret. rewrite Hten. reflexivity.
  - apply ensureAuthenticated_events in Hauth. destruct Hauth as (evs & T & B).
    rewrite T. count_calls.
Qed.

End ControllerProperties.

(** ** The further statements on concrete states *)

Module MoreRuns.

Import Sample SampleMore.

Local Open Scope list_scope.

Lemma session_call_budget_witness :
  exists evs,
    trace (snd (ensureAuthenticated env cached_stale)) = trace cached_stale ++ evs
    /\ session_budget evs /\ writes_follow_refresh evs.
Proof.
  destruct (session_call_budget env cached_stale) as (Hauth & _ & _).
  apply (Hauth (fst (ensureAuthenticated env cached_stale))).
  by_computation.
Defined.

Lemma ensureAuthenticated_failure_kinds_witness :
  authenticationRequired = authenticationRequired
  \/ exists setTokenSet stored w1,
       sdk_setTokenSet env = Some setTokenSet
       /\ loadTokenSet env cached_expired = (Ok stored, w1)
       /\ truthy stored = true
       /\ call_sdk (CallSetTokenSet stored) (setTokenSet stored) w1
          = (Throw authenticationRequired, snd (ensureAuthenticated env cached_expired)).
Proof.
  unshelve epose proof
    (ensureAuthenticated_failure_kinds env cached_expired authenticationRequired
       (snd (ensureAuthenticated env cached_expired)) _) as H; [by_computation | ].
  exact (proj1 H).
Defined.

Lemma ensureAuthenticated_refresh_failure_witness :
  fst (ensureAuthenticated env cached_rejected) = Throw authenticationRequired.
Proof.
  unshelve epose proof
    (ensureAuthenticated_refresh_failure env cached_rejected
       (text_of fresh_token) (ext cached_rejected) fresh_token cached_rejected_applied
       _ _ _ _ _ _ _ _) as H; [by_computation .. | ].
  destruct H as (Hthrows & _ & _).
  unshelve epose proof
    (Hthrows (Error "invalid_grant") (client cached_rejected_applied)
       (ext cached_rejected_applied) _) as Hrun; [by_computation | ].
  rewrite Hrun. reflexivity.
Defined.

Lemma ensureAuthenticated_without_cached_record_witness :
  exists w',
    ensureAuthenticated env memory_stale = (Throw authenticationRequired, w')
    /\ client w' = client memory_stale.
Proof.
  unshelve epose proof
    (ensureAuthenticated_without_cached_record env memory_stale (ext memory_stale) _ _)
    as H; [by_computation | left; by_computation | ].
  destruct H as (w' & Hrun & Hclient & _).
  exists w'. split; assumption.
Defined.

Lemma ensureAuthenticated_loads_fresh_record_witness :
  ensureAuthenticated env_no_setter cached_fresh = (Ok tt, cached_fresh_applied)
  /\ ensureAuthenticated env_no_setter cached_fresh_applied = (Ok tt, cached_fresh_applied).
Proof.
  unshelve epose proof
    (ensureAuthenticated_loads_fresh_record env_no_setter cached_fresh
       (text_of fresh_token) (ext cached_fresh) fresh_token cached_fresh_applied
       _ _ _ _ _ _ _) as H; [by_computation .. | ].
  destruct H as (Hrun & _ & _ & Hnext).
  split; [exact Hrun|]. apply Hnext. reflexivity.
Defined.

Lemma getTenants_cached_or_fetched_witness :
  getTenants env two_tenants = (Ok (JArr [tenant "t0"; tenant "t1"]), two_tenants).
Proof.
  unshelve epose proof
    (getTenants_cached_or_fetched env two_tenants two_tenants _) as H;
    [by_computation | ].
  destruct H as (Hcached & _).
  apply Hcached. by_computation.
Defined.

Lemma getTenants_failure_kinds_witness :
  ensureAuthenticated env cached_expired
  = (Throw authenticationRequired, snd (getTenants env cached_expired))
  \/ exists w1 e0 c' x',
       ensureAuthenticated env cached_expired = (Ok tt, w1)
       /\ sdk_updateTenants env (client w1) (ext w1) = (Throw e0, c', x')
       /\ authenticationRequired = Error ("Failed to retrieve tenants: " ++ Exn_toString e0)
       /\ snd (getTenants env cached_expired)
          = mkWorld c' x' (trace w1 ++ [CallUpdateTenants]).
Proof.
  apply (getTenants_failure_kinds env cached_expired authenticationRequired).
  by_computation.
Defined.

Lemma getTokenFromCode_failure_kinds_witness :
  (snd (getTokenFromCode env_tenants_down (JStr "abc") (configured penv_two))
   = configured penv_two
   /\ (Error "Failed to exchange authorization code: Error: tenants unavailable"
       = Error "Authorization code is required"
       \/ Error "Failed to exchange authorization code: Error: tenants unavailable"
          = Error "XERO_REDIRECT_URIS not configured"
       \/ Error "Failed to exchange authorization code: Error: tenants unavailable"
          = TypeError "code?.trim is not a function"))
  \/ exists e0,
       exchangeCode env_tenants_down (JStr "abc")
         (configuredRedirectUri (configured penv_two)) (configured penv_two)
       = (Throw e0,
          snd (getTokenFromCode env_tenants_down (JStr "abc") (configured penv_two)))
       /\ Error "Failed to exchange authorization code: Error: tenants unavailable"
          = Error ("Failed to exchange authorization code: " ++ Exn_toString e0).
Proof.
  apply (getTokenFromCode_failure_kinds env_tenants_down (JStr "abc")
           (configured penv_two)).
  by_computation.
Defined.

Lemma getTokenFromCode_tenant_failure_not_saved_witness :
  fst (getTokenFromCode env_tenants_down (JStr "abc") (configured penv_two))
  = Throw (Error "Failed to exchange authorization code: Error: tenants unavailable")
  /\ cache_writes
       (trace (snd (getTokenFromCode env_tenants_down (JStr "abc") (configured penv_two))))
     = 0%nat.
Proof.
  set (url := "https://a.example/cb?code=abc").
  set (w1 := mkWorld (client (configured penv_two)) (ext (configured penv_two))
               (trace (configured penv_two) ++ [CallApiCallback url])).
  unshelve epose proof
    (getTokenFromCode_tenant_failure_not_saved env_tenants_down (configured penv_two)
       "abc" "https://a.example/cb" "abc" fresh_token
       (client (configured penv_two)) (ext (configured penv_two))
       (snd (setClientTokenSet env_tenants_down fresh_token w1))
       (Error "tenants unavailable")
       (client (snd (setClientTokenSet env_tenants_down fresh_token w1)))
       (ext (snd (setClientTokenSet env_tenants_down fresh_token w1)))
       _ _ _ _ _ _ _) as H; [by_computation .. | ].
  destruct H as (Hrun & Hwrites).
  rewrite Hrun. split; [reflexivity|].
  etransitivity; [exact Hwrites | by_computation].
Defined.

Lemma save_then_load_round_trip_witness :
  fst (bind (saveTokenSet env stale_token) (fun _ => loadTokenSet env) empty_world)
  = Ok stale_token.
Proof.
  unshelve epose proof
    (save_then_load_round_trip env stale_token empty_world (text_of stale_token)
       (snd (redis_set env TOKEN_SET_KEY (text_of stale_token) (ext empty_world)))
       (snd (redis_set env TOKEN_SET_KEY (text_of stale_token) (ext empty_world)))
       _ _ _ _ _ _) as H; [by_computation .. | ].
  rewrite H. reflexivity.
Defined.

Lemma isFresh_decays_witness :
  isFresh env fresh_token (at_time 1000) = (Ok true, at_time 1000).
Proof.
  unshelve epose proof
    (isFresh_decays env fresh_token (at_time 1000) (at_time 2000000) _) as H;
    [by_computation | ].
  destruct H as (Hearlier & _).
  apply Hearlier. by_computation.
Defined.

Lemma constructor_lists_clean_witness :
  redirectUris penv_two = ["https://a.example/cb"; "https://b.example/cb"]
  /\ trim "https://b.example/cb" = "https://b.example/cb"
  /\ redirectUris penv_unset = [].
Proof.
  destruct (constructor_lists_clean penv_two) as (Huris & _ & _).
  destruct (constructor_lists_clean penv_unset) as (_ & _ & Hunset).
  split; [by_computation|]. split.
  - destruct (Huris "https://b.example/cb") as (_ & Htrim & _); [|exact Htrim].
    vm_compute. right. left. reflexivity.
  - apply Hunset. left. reflexivity.
Defined.

Lemma getTokenFromCode_not_configured_iff_witness :
  getTokenFromCode env (JStr "abc") (configured penv_unset)
  = (Throw (Error "XERO_REDIRECT_URIS not configured"), configured penv_unset).
Proof.
  unshelve epose proof
    (getTokenFromCode_not_configured_iff env (configured penv_unset) penv_unset _) as H;
    [by_computation | ].
  destruct H as (_ & Hiff).
  apply (Hiff "abc"); [by_computation|]. split; reflexivity.
Defined.

Lemma constructor_numbers_default_witness :
  httpTimeout env penv_two = Fin 30000 /\ clockTolerance env penv_two = Fin 10.
Proof.
  destruct (constructor_numbers_default env penv_two) as (_ & _ & Hzero & _ & Hkeep & _).
  split.
  - apply Hzero. right. by_computation.
  - apply (Hkeep (Fin 10)); [discriminate | discriminate | by_computation].
Defined.

Lemma getAuthorizationUrl_failure_kinds_witness :
  exists c x,
    buildConsentUrl_rejects (client empty_world) (ext empty_world)
    = (Ok (Promise (Throw (Error "discovery failed"))), c, x).
Proof.
  unshelve epose proof
    (getAuthorizationUrl_failure_kinds buildConsentUrl_rejects empty_world
       (Error "discovery failed")
       (snd (getAuthorizationUrl buildConsentUrl_rejects empty_world)) _) as H;
    [by_computation | ].
  destruct H as (_ & [(e0 & c & x & Hthrow & _) | Hreject]).
  - discriminate Hthrow.
  - exact Hreject.
Defined.

Lemma connect_outcome_witness :
  trace (conn_world (snd (connect buildConsentUrl_ok res_ok (request empty_world))))
  = trace empty_world.
Proof.
  unshelve epose proof
    (connect_outcome buildConsentUrl_ok res_ok (request empty_world)
       (fst (connect buildConsentUrl_ok res_ok (request empty_world)))
       (snd (connect buildConsentUrl_ok res_ok (request empty_world))) _) as H;
    [by_computation | ].
  exact (proj1 H).
Defined.

Lemma callback_rejections_witness :
  callback env res_ok (JStr " ") JUndefined (request empty_world)
  = (Throws (HttpException "OAuth callback failed: Authorization code is required"
               INTERNAL_SERVER_ERROR), request empty_world)
  /\ callback env res_ok JUndefined (JStr "access_denied") (request empty_world)
     = (Throws (HttpException "OAuth error: access_denied" BAD_REQUEST),
        request empty_world).
Proof.
  split.
  - destruct (callback_rejections env res_ok (JStr " ") JUndefined (request empty_world))
      as (_ & _ & Hblank).
    apply (Hblank " "); by_computation.
  - destruct (callback_rejections env res_ok JUndefined (JStr "access_denied")
                (request empty_world)) as (Herror & _).
    apply (Herror "access_denied"); by_computation.
Defined.

Lemma callback_outcome_witness :
  sent (snd (callback env res_ok (JStr "abc") JUndefined (request (configured penv_two))))
  = [ResJson (callbackReply (JNum (Fin 2800)))].
Proof.
  unshelve epose proof
    (callback_outcome env res_ok (JStr "abc") JUndefined (request (configured penv_two))
       (fst (callback env res_ok (JStr "abc") JUndefined (request (configured penv_two))))
       (snd (callback env res_ok (JStr "abc") JUndefined (request (configured penv_two))))
       _ _ _) as H; [by_computation .. | ].
  destruct H as [(_ & tokenSet & w1 & Htoken & Hsent & _) | (name & message & Hthrows & _)].
  - rewrite Hsent.
    assert (Hrun : getTokenFromCode env (JStr "abc") (configured penv_two)
                   = (Ok fresh_token,
                      snd (getTokenFromCode env (JStr "abc") (configured penv_two))))
      by by_computation.
    change (conn_world (request (configured penv_two))) with (configured penv_two)
      in Htoken.
    rewrite Hrun in Htoken. inversion Htoken; subst. by_computation.
  - assert (Hfst : fst (callback env res_ok (JStr "abc") JUndefined
                          (request (configured penv_two))) = Returns tt)
      by by_computation.
    rewrite Hfst in Hthrows. discriminate.
Defined.

Lemma getStatus_total_witness :
  fst (getStatus env (request two_tenants))
  = Returns (statusReply true (JNum (Fin 2))).
Proof.
  destruct (getStatus_total env (request two_tenants)) as (v & s' & Hrun & _ & _ & Hlist).
  rewrite Hrun.
  rewrite (Hlist [tenant "t0"; tenant "t1"] two_tenants); [reflexivity | by_computation].
Defined.

Lemma controller_when_authentication_required_witness :
  fst (getStatus env (request cached_expired))
  = Returns (statusReply false (JNum (Fin 0))).
Proof.
  unshelve epose proof
    (controller_when_authentication_required env (request cached_expired)
       (snd (ensureAuthenticated env cached_expired)) _) as H; [by_computation | ].
  destruct H as (_ & Hstatus & _).
  rewrite Hstatus. reflexivity.
Defined.

End MoreRuns.
